(** * fedify: the dispatcher registry of [federation/middleware.ts] and the
    outbox send pipeline exercised by [federation/send.test.ts]

  The development is a shallow embedding.  A method of the [Federation]
  class is a computation in a state-and-exception monad over the private
  fields of the instance and the objects it shares with the setter chains
  it hands out; a thrown exception keeps every mutation made before the
  [throw], as in JavaScript. *)

From Stdlib Require Import Ascii.
From stdpp Require Import gmap strings list pretty.

(** [set_solver] clears hypotheses that may already be gone. *)
#[local] Set Warnings "-clear-no-such-hyp".

Local Open Scope string_scope.
Local Open Scope nat_scope.
Local Open Scope list_scope.

(** ** Web platform values

  [URL], [Request] and [Response] are host objects.  Only the fields read
  by the code are kept. *)

Module Web.

(** A parsed absolute URL: [origin] is scheme, host and port, and [href]
    is the origin followed by path, query and fragment. *)
Record URL := mkURL {
  origin : string;
  pathname : string;
}.

Definition href (u : URL) : string := origin u +:+ pathname u.

Record Request := mkRequest {
  method : string;
  url : URL;
  headers : gmap string string;
  body : string;
}.

Record Response := mkResponse {
  status : nat;
  statusText : string;
  text : string;
}.

(** [Response.ok]: the status is in the range 200-299. *)
Definition ok (r : Response) : bool :=
  (200 <=? status r) && (status r <=? 299).

#[global] Instance URL_eq_dec : EqDecision URL.
Proof. solve_decision. Defined.

#[global] Instance Request_eq_dec : EqDecision Request.
Proof. solve_decision. Defined.

#[global] Instance Response_eq_dec : EqDecision Response.
Proof. solve_decision. Defined.

End Web.

(** ** Errors thrown by the registry *)

Inductive error :=
| RouterError (message : string)
| TypeError (message : string)
| Error (message : string).

#[global] Instance error_eq_dec : EqDecision error.
Proof. solve_decision. Defined.

(** ** Router *)

Module Router.
Section router.

(** [federation/router.ts] is not part of the sources.  The URI-template
    syntax is a parameter of the router: [parse] yields either the
    message of the syntax error of a pattern or the set of its variable
    names, and [matches] the variable bindings of a path against a
    pattern, if it matches. *)
Variable parse : string → string + gset string.
Variable matches : string → string → option (gmap string string).

(** Modelled from the spec: the class [Router] of [federation/router.ts],
    absent from the sources, holds the patterns registered so far, each
    under its role name. *)
Record Route := mkRoute {
  pattern : string;
  name : string;
}.

Definition t := list Route.

Definition empty : t := [].

(** Modelled from the spec: [has(role)] of the absent [Router] tells
    whether a pattern is registered under the role. *)
Definition has (r : t) (role : string) : bool :=
  bool_decide (role ∈ name <$> r).

(** Modelled from the spec: [add(pattern, role)] of the absent [Router]
    registers the pattern under the role and returns the set of its
    variable names; it fails with a [RouterError] if the pattern is
    syntactically invalid. *)
Definition add (r : t) (template role : string) : t * (error + gset string) :=
  match parse template with
  | inl message => (r, inl (RouterError message))
  | inr variables => (r ++ [mkRoute template role], inr variables)
  end.

(** Modelled from the spec: [route(path)] of the absent [Router] returns
    the role and the variable bindings of the first registered pattern
    the path matches, or nothing. *)
Fixpoint route (r : t) (path : string)
    : option (string * gmap string string) :=
  match r with
  | [] => None
  | rt :: r' =>
      match matches (pattern rt) path with
      | Some values => Some (name rt, values)
      | None => route r' path
      end
  end.

End router.
End Router.

(** ** The dispatcher registry: [class Federation] *)

Module Middleware.
Section federation.

#[local] Set Default Proof Using "Type".

(** Application callbacks are opaque values to the registry, which only
    stores them and hands them to the handlers.  [ActivityClass] is the
    type of the activity constructors that key the listener [Map]. *)
Context {TContextData ActorDispatcher OutboxDispatcher OutboxCounter
         OutboxCursor InboxListener InboxErrorHandler DocumentLoader : Type}.
Context {ActivityClass : Type} `{Countable ActivityClass}.

(** URI-template syntax of the router, and the default document loader
    imported from [runtime/docloader.ts]. *)
Variable parse : string → string + gset string.
Variable matches : string → string → option (gmap string string).
Variable fetchDocumentLoader : DocumentLoader.

(** Addresses of heap objects, also used as object identities. *)
Definition loc := nat.

(** The object literal [callbacks] of [setOutboxDispatcher]. *)
Record OutboxCallbacks := mkOutboxCallbacks {
  dispatcher : OutboxDispatcher;
  counter : option OutboxCounter;
  firstCursor : option OutboxCursor;
  lastCursor : option OutboxCursor;
}.

(** The private fields.  [outboxCallbacks] is a reference: the object is
    shared with the closures of the setter chain.  [inboxListeners] is
    assigned once, in the constructor, so the [Map] it refers to is kept
    in the field itself. *)
Record Federation := mkFederation {
  router : Router.t;
  actorDispatcher : option ActorDispatcher;
  outboxCallbacks : option loc;
  inboxListeners : gmap ActivityClass InboxListener;
  inboxErrorHandler : option InboxErrorHandler;
  documentLoader : DocumentLoader;
  treatHttps : bool;
}.

Record State := mkState {
  this : Federation;
  objects : gmap loc OutboxCallbacks;
  next : loc;
}.

(** The objects returned to the caller.  A setter object is determined by
    its identity and by the variables its methods close over. *)
Record OutboxCallbackSetters := mkOutboxCallbackSetters {
  setters_id : loc;
  callbacks : loc;
}.

Record InboxListenerSetter := mkInboxListenerSetter {
  setter_id : loc;
}.

Record FederationParameters := mkFederationParameters {
  param_documentLoader : option DocumentLoader;
  param_treatHttps : option bool;
}.

(** *** State and exception monad *)

Definition M (A : Type) : Type := State → State * (error + A).

#[local] Instance M_ret : MRet M := λ A a σ, (σ, inr a).
#[local] Instance M_bind : MBind M := λ A B f m σ,
  match m σ with
  | (σ', inl e) => (σ', inl e)
  | (σ', inr a) => f a σ'
  end.

Definition throw {A} (e : error) : M A := λ σ, (σ, inl e).
Definition read {A} (f : Federation → A) : M A := λ σ, (σ, inr (f (this σ))).
Definition write (f : Federation → Federation) : M unit :=
  λ σ, (mkState (f (this σ)) (objects σ) (next σ), inr ()).
Definition fresh_loc : M loc :=
  λ σ, (mkState (this σ) (objects σ) (S (next σ)), inr (next σ)).
Definition store (l : loc) (o : OutboxCallbacks) : M unit :=
  λ σ, (mkState (this σ) (<[l:=o]> (objects σ)) (next σ), inr ()).
Definition update (l : loc) (f : OutboxCallbacks → OutboxCallbacks) : M unit :=
  λ σ, (mkState (this σ) (alter f l (objects σ)) (next σ), inr ()).

Definition set_router (r : Router.t) (f : Federation) : Federation :=
  mkFederation r (actorDispatcher f) (outboxCallbacks f) (inboxListeners f)
    (inboxErrorHandler f) (documentLoader f) (treatHttps f).
Definition set_actorDispatcher (d : ActorDispatcher) (f : Federation) :=
  mkFederation (router f) (Some d) (outboxCallbacks f) (inboxListeners f)
    (inboxErrorHandler f) (documentLoader f) (treatHttps f).
Definition set_outboxCallbacks (l : loc) (f : Federation) :=
  mkFederation (router f) (actorDispatcher f) (Some l) (inboxListeners f)
    (inboxErrorHandler f) (documentLoader f) (treatHttps f).
Definition set_inboxListeners (m : gmap ActivityClass InboxListener)
    (f : Federation) :=
  mkFederation (router f) (actorDispatcher f) (outboxCallbacks f) m
    (inboxErrorHandler f) (documentLoader f) (treatHttps f).
Definition set_inboxErrorHandler (h : InboxErrorHandler) (f : Federation) :=
  mkFederation (router f) (actorDispatcher f) (outboxCallbacks f)
    (inboxListeners f) (Some h) (documentLoader f) (treatHttps f).

Definition set_counter (c : OutboxCounter) (o : OutboxCallbacks) :=
  mkOutboxCallbacks (dispatcher o) (Some c) (firstCursor o) (lastCursor o).
Definition set_firstCursor (c : OutboxCursor) (o : OutboxCallbacks) :=
  mkOutboxCallbacks (dispatcher o) (counter o) (Some c) (lastCursor o).
Definition set_lastCursor (c : OutboxCursor) (o : OutboxCallbacks) :=
  mkOutboxCallbacks (dispatcher o) (counter o) (firstCursor o) (Some c).

(** [this.#router.has(role)] and [this.#router.add(path, role)]. *)
Definition router_has (role : string) : M bool :=
  read (λ f, Router.has (router f) role).

Definition router_add (path role : string) : M (gset string) := λ σ,
  let '(r, result) := Router.add parse (router (this σ)) path role in
  (mkState (set_router r (this σ)) (objects σ) (next σ), result).

(** [variables.size !== 1 || !variables.has("handle")] *)
Definition bad_variables (variables : gset string) : bool :=
  negb (size variables =? 1) || negb (bool_decide ("handle" ∈ variables)).

(** *** Constructor *)

Definition new_Federation (parameters : FederationParameters)
    : error + State :=
  let '(r, result) :=
    Router.add parse Router.empty "/.well-known/webfinger" "webfinger" in
  match result with
  | inl e => inl e
  | inr _ =>
      inr (mkState
             (mkFederation r None None ∅ None
                (default fetchDocumentLoader (param_documentLoader parameters))
                (default false (param_treatHttps parameters)))
             ∅ 0)
  end.

(** *** Registration methods *)

Definition setActorDispatcher (path : string) (dispatcher : ActorDispatcher)
    : M unit :=
  registered ← router_has "actor";
  if registered : bool then
    throw (RouterError "Actor dispatcher already set.")
  else
    variables ← router_add path "actor";
    if bad_variables variables then
      throw (RouterError
               "Path for actor dispatcher must have one variable: {handle}")
    else
      write (set_actorDispatcher dispatcher).

Definition setCounter (setters : OutboxCallbackSetters) (c : OutboxCounter)
    : M OutboxCallbackSetters :=
  _ ← update (callbacks setters) (set_counter c);
  mret setters.

Definition setFirstCursor (setters : OutboxCallbackSetters) (c : OutboxCursor)
    : M OutboxCallbackSetters :=
  _ ← update (callbacks setters) (set_firstCursor c);
  mret setters.

Definition setLastCursor (setters : OutboxCallbackSetters) (c : OutboxCursor)
    : M OutboxCallbackSetters :=
  _ ← update (callbacks setters) (set_lastCursor c);
  mret setters.

Definition setOutboxDispatcher (path : string) (dispatcher : OutboxDispatcher)
    : M OutboxCallbackSetters :=
  registered ← router_has "outbox";
  if registered : bool then
    throw (RouterError "Outbox dispatcher already set.")
  else
    variables ← router_add path "outbox";
    if bad_variables variables then
      throw (RouterError
               "Path for outbox dispatcher must have one variable: {handle}")
    else
      l ← fresh_loc;
      _ ← store l (mkOutboxCallbacks dispatcher None None None);
      _ ← write (set_outboxCallbacks l);
      s ← fresh_loc;
      mret (mkOutboxCallbackSetters s l).

Definition on (setter : InboxListenerSetter) (type : ActivityClass)
    (listener : InboxListener) : M InboxListenerSetter :=
  listeners ← read inboxListeners;
  if bool_decide (is_Some (listeners !! type)) then
    throw (TypeError "Listener already set for this type.")
  else
    _ ← write (set_inboxListeners (<[type:=listener]> listeners));
    mret setter.

Definition onError (setter : InboxListenerSetter) (handler : InboxErrorHandler)
    : M InboxListenerSetter :=
  _ ← write (set_inboxErrorHandler handler);
  mret setter.

Definition setInboxListeners (path : string) : M InboxListenerSetter :=
  registered ← router_has "inbox";
  if registered : bool then
    throw (RouterError "Inbox already set.")
  else
    variables ← router_add path "inbox";
    if bad_variables variables then
      throw (RouterError "Path for inbox must have one variable: {handle}")
    else
      s ← fresh_loc;
      mret (mkInboxListenerSetter s).

(** *** Request dispatch: [handle] *)

Record FederationHandlerParameters := mkFederationHandlerParameters {
  contextData : TContextData;
  onNotFound : Web.Request → Web.Response;
  onNotAcceptable : Web.Request → Web.Response;
}.

(** [new Context(router, documentLoader, request, contextData, treatHttps)] *)
Record Context := mkContext {
  context_router : Router.t;
  context_documentLoader : DocumentLoader;
  context_request : Web.Request;
  context_data : TContextData;
  context_treatHttps : bool;
}.

(** The argument objects of the four handlers, field by field as [handle]
    builds them. *)
Record WebFingerHandlerParameters := mkWebFingerHandlerParameters {
  wf_context : Context;
  wf_actorDispatcher : option ActorDispatcher;
  wf_onNotFound : Web.Request → Web.Response;
}.

Record ActorHandlerParameters := mkActorHandlerParameters {
  ah_handle : option string;
  ah_context : Context;
  ah_documentLoader : DocumentLoader;
  ah_actorDispatcher : option ActorDispatcher;
  ah_onNotFound : Web.Request → Web.Response;
  ah_onNotAcceptable : Web.Request → Web.Response;
}.

Record OutboxHandlerParameters := mkOutboxHandlerParameters {
  oh_handle : option string;
  oh_context : Context;
  oh_documentLoader : DocumentLoader;
  oh_outboxDispatcher : option OutboxDispatcher;
  oh_outboxCounter : option OutboxCounter;
  oh_outboxFirstCursor : option OutboxCursor;
  oh_outboxLastCursor : option OutboxCursor;
  oh_onNotFound : Web.Request → Web.Response;
  oh_onNotAcceptable : Web.Request → Web.Response;
}.

Record InboxHandlerParameters := mkInboxHandlerParameters {
  ih_handle : option string;
  ih_context : Context;
  ih_documentLoader : DocumentLoader;
  ih_actorDispatcher : option ActorDispatcher;
  ih_inboxListeners : gmap ActivityClass InboxListener;
  ih_inboxErrorHandler : option InboxErrorHandler;
  ih_onNotFound : Web.Request → Web.Response;
}.

(** The handlers of [webfinger/handler.ts] and [federation/handler.ts]
    are outside the sources; [handle] only delegates to them. *)
Variable handleWebFinger :
  Web.Request → WebFingerHandlerParameters → Web.Response.
Variable handleActor : Web.Request → ActorHandlerParameters → Web.Response.
Variable handleOutbox : Web.Request → OutboxHandlerParameters → Web.Response.
Variable handleInbox : Web.Request → InboxHandlerParameters → Web.Response.

(** [this.#outboxCallbacks?.field] *)
Definition outbox_field {A} (σ : State) (field : OutboxCallbacks → option A)
    : option A :=
  l ← outboxCallbacks (this σ); o ← objects σ !! l; field o.

(** Awaiting a promise is the identity in this embedding, so the two
    branches of [response instanceof Promise ? await response : response]
    coincide. *)
Definition handle (σ : State) (request : Web.Request)
    (parameters : FederationHandlerParameters) : Web.Response :=
  let f := this σ in
  match Router.route matches (router f) (Web.pathname (Web.url request)) with
  | None => onNotFound parameters request
  | Some (name, values) =>
      let context :=
        mkContext (router f) (documentLoader f) request
          (contextData parameters) (treatHttps f) in
      if decide (name = "webfinger") then
        handleWebFinger request
          (mkWebFingerHandlerParameters context (actorDispatcher f)
             (onNotFound parameters))
      else if decide (name = "actor") then
        handleActor request
          (mkActorHandlerParameters (values !! "handle") context
             (documentLoader f) (actorDispatcher f)
             (onNotFound parameters) (onNotAcceptable parameters))
      else if decide (name = "outbox") then
        handleOutbox request
          (mkOutboxHandlerParameters (values !! "handle") context
             (documentLoader f)
             (outbox_field σ (λ o, Some (dispatcher o)))
             (outbox_field σ counter)
             (outbox_field σ firstCursor)
             (outbox_field σ lastCursor)
             (onNotFound parameters) (onNotAcceptable parameters))
      else if decide (name = "inbox") then
        handleInbox request
          (mkInboxHandlerParameters (values !! "handle") context
             (documentLoader f) (actorDispatcher f) (inboxListeners f)
             (inboxErrorHandler f) (onNotFound parameters))
      else onNotFound parameters request
  end.

(** *** Registration scripts

    An application registers its callbacks by a sequence of method calls
    on the instance and on the setter objects the instance returned.  A
    setter can only be called once it has been returned, so a script
    keeps the two setter objects it may hold; a call through a setter not
    yet obtained cannot be written and is skipped.  Every call is taken
    to be guarded by the application, so an exception ends the call, not
    the script. *)
Inductive call :=
  | CallSetActorDispatcher (path : string) (d : ActorDispatcher)
  | CallSetOutboxDispatcher (path : string) (d : OutboxDispatcher)
  | CallSetInboxListeners (path : string)
  | CallSetCounter (c : OutboxCounter)
  | CallSetFirstCursor (c : OutboxCursor)
  | CallSetLastCursor (c : OutboxCursor)
  | CallOn (type : ActivityClass) (listener : InboxListener)
  | CallOnError (handler : InboxErrorHandler).

Record Program := mkProgram {
  state : State;
  outboxSetters : option OutboxCallbackSetters;
  inboxSetter : option InboxListenerSetter;
}.

Definition keep {A} (old : option A) (result : error + A) : option A :=
  match result with
  | inl _ => old
  | inr a => Some a
  end.

Definition via {A B} (setter : option A) (m : A → M B) (p : Program)
    : Program :=
  match setter with
  | None => p
  | Some s => mkProgram (m s (state p)).1 (outboxSetters p) (inboxSetter p)
  end.

Definition run_call (p : Program) (c : call) : Program :=
  match c with
  | CallSetActorDispatcher path d =>
      mkProgram (setActorDispatcher path d (state p)).1
        (outboxSetters p) (inboxSetter p)
  | CallSetOutboxDispatcher path d =>
      let '(σ, result) := setOutboxDispatcher path d (state p) in
      mkProgram σ (keep (outboxSetters p) result) (inboxSetter p)
  | CallSetInboxListeners path =>
      let '(σ, result) := setInboxListeners path (state p) in
      mkProgram σ (outboxSetters p) (keep (inboxSetter p) result)
  | CallSetCounter c => via (outboxSetters p) (λ s, setCounter s c) p
  | CallSetFirstCursor c => via (outboxSetters p) (λ s, setFirstCursor s c) p
  | CallSetLastCursor c => via (outboxSetters p) (λ s, setLastCursor s c) p
  | CallOn type listener => via (inboxSetter p) (λ s, on s type listener) p
  | CallOnError handler => via (inboxSetter p) (λ s, onError s handler) p
  end.

Definition run (p : Program) (cs : list call) : Program :=
  foldl run_call p cs.

Definition start (σ : State) : Program := mkProgram σ None None.

(** *** Basic facts *)

Definition registered (role : string) (σ : State) : bool :=
  Router.has (router (this σ)) role.

(** The state after [this.#router.add(path, role)] went through. *)
Definition with_route (path role : string) (σ : State) : State :=
  mkState (set_router (router (this σ) ++ [Router.mkRoute path role]) (this σ))
    (objects σ) (next σ).

Lemma bad_variables_false (variables : gset string) :
  bad_variables variables = false ↔ variables = {["handle"]}.
Proof.
  unfold bad_variables. rewrite orb_false_iff, !negb_false_iff.
  rewrite Nat.eqb_eq, bool_decide_eq_true. split.
  - intros [Hsize Hin]. apply size_1_elem_of in Hsize as [x Hx].
    apply leibniz_equiv in Hx. subst variables.
    apply elem_of_singleton in Hin. by subst x.
  - intros ->. split; [apply size_singleton | by apply elem_of_singleton].
Qed.

Lemma bad_variables_true (variables : gset string) :
  variables ≠ {["handle"]} → bad_variables variables = true.
Proof.
  intros Hne. destruct (bad_variables variables) eqn:E; [done|].
  by apply bad_variables_false in E.
Qed.

Lemma has_app (r k : Router.t) (role : string) :
  Router.has (r ++ k) role = Router.has r role || Router.has k role.
Proof.
  unfold Router.has. rewrite fmap_app.
  rewrite <- bool_decide_or. apply bool_decide_ext, elem_of_app.
Qed.

Lemma has_with_route (path role : string) (σ : State) :
  registered role (with_route path role σ) = true.
Proof.
  unfold registered, with_route; simpl. rewrite has_app.
  apply orb_true_iff; right. unfold Router.has; simpl.
  apply bool_decide_eq_true. constructor.
Qed.

Ltac run_method :=
  unfold setActorDispatcher, setOutboxDispatcher, setInboxListeners,
    setCounter, setFirstCursor, setLastCursor, on, onError,
    router_has, router_add, Router.add, read, write, throw, fresh_loc,
    store, update, registered, with_route in *;
  unfold mbind, mret, M_bind, M_ret in *; simpl in *.

(** Case analysis of [setActorDispatcher]. *)
Lemma setActorDispatcher_registered path d σ :
  registered "actor" σ = true →
  setActorDispatcher path d σ
  = (σ, inl (RouterError "Actor dispatcher already set.")).
Proof. intros Hreg. run_method. by rewrite Hreg. Qed.

Lemma setActorDispatcher_invalid path d σ message :
  registered "actor" σ = false → parse path = inl message →
  setActorDispatcher path d σ = (σ, inl (RouterError message)).
Proof.
  intros Hreg Hparse. run_method. rewrite Hreg, Hparse.
  by destruct σ as [[] ? ?].
Qed.

Lemma setActorDispatcher_arity path d σ variables :
  registered "actor" σ = false → parse path = inr variables →
  variables ≠ {["handle"]} →
  setActorDispatcher path d σ
  = (with_route path "actor" σ,
     inl (RouterError
            "Path for actor dispatcher must have one variable: {handle}")).
Proof.
  intros Hreg Hparse Hne. run_method. rewrite Hreg, Hparse.
  by rewrite (bad_variables_true _ Hne).
Qed.

Lemma setActorDispatcher_ok path d σ :
  registered "actor" σ = false → parse path = inr {["handle"]} →
  setActorDispatcher path d σ
  = (mkState (set_actorDispatcher d (this (with_route path "actor" σ)))
       (objects σ) (next σ), inr ()).
Proof.
  intros Hreg Hparse. run_method. rewrite Hreg, Hparse.
  by rewrite (proj2 (bad_variables_false _) eq_refl).
Qed.

(** Case analysis of [setOutboxDispatcher]. *)
Lemma setOutboxDispatcher_registered path d σ :
  registered "outbox" σ = true →
  setOutboxDispatcher path d σ
  = (σ, inl (RouterError "Outbox dispatcher already set.")).
Proof. intros Hreg. run_method. by rewrite Hreg. Qed.

Lemma setOutboxDispatcher_invalid path d σ message :
  registered "outbox" σ = false → parse path = inl message →
  setOutboxDispatcher path d σ = (σ, inl (RouterError message)).
Proof.
  intros Hreg Hparse. run_method. rewrite Hreg, Hparse.
  by destruct σ as [[] ? ?].
Qed.

Lemma setOutboxDispatcher_arity path d σ variables :
  registered "outbox" σ = false → parse path = inr variables →
  variables ≠ {["handle"]} →
  setOutboxDispatcher path d σ
  = (with_route path "outbox" σ,
     inl (RouterError
            "Path for outbox dispatcher must have one variable: {handle}")).
Proof.
  intros Hreg Hparse Hne. run_method. rewrite Hreg, Hparse.
  by rewrite (bad_variables_true _ Hne).
Qed.

Lemma setOutboxDispatcher_ok path d σ :
  registered "outbox" σ = false → parse path = inr {["handle"]} →
  setOutboxDispatcher path d σ
  = (mkState
       (set_outboxCallbacks (next σ) (this (with_route path "outbox" σ)))
       (<[next σ:=mkOutboxCallbacks d None None None]> (objects σ))
       (S (S (next σ))),
     inr (mkOutboxCallbackSetters (S (next σ)) (next σ))).
Proof.
  intros Hreg Hparse. run_method. rewrite Hreg, Hparse.
  by rewrite (proj2 (bad_variables_false _) eq_refl).
Qed.

(** Case analysis of [setInboxListeners]. *)
Lemma setInboxListeners_registered path σ :
  registered "inbox" σ = true →
  setInboxListeners path σ = (σ, inl (RouterError "Inbox already set.")).
Proof. intros Hreg. run_method. by rewrite Hreg. Qed.

Lemma setInboxListeners_invalid path σ message :
  registered "inbox" σ = false → parse path = inl message →
  setInboxListeners path σ = (σ, inl (RouterError message)).
Proof.
  intros Hreg Hparse. run_method. rewrite Hreg, Hparse.
  by destruct σ as [[] ? ?].
Qed.

Lemma setInboxListeners_arity path σ variables :
  registered "inbox" σ = false → parse path = inr variables →
  variables ≠ {["handle"]} →
  setInboxListeners path σ
  = (with_route path "inbox" σ,
     inl (RouterError "Path for inbox must have one variable: {handle}")).
Proof.
  intros Hreg Hparse Hne. run_method. rewrite Hreg, Hparse.
  by rewrite (bad_variables_true _ Hne).
Qed.

Lemma setInboxListeners_ok path σ :
  registered "inbox" σ = false → parse path = inr {["handle"]} →
  setInboxListeners path σ
  = (mkState (this (with_route path "inbox" σ)) (objects σ) (S (next σ)),
     inr (mkInboxListenerSetter (next σ))).
Proof.
  intros Hreg Hparse. run_method. rewrite Hreg, Hparse.
  by rewrite (proj2 (bad_variables_false _) eq_refl).
Qed.

(** *** What a call can change *)

Ltac run_call_cases c :=
  destruct c; unfold run_call, via; run_method;
  repeat (case_match; simplify_eq/=); simpl in *.

Lemma has_grows r k role :
  Router.has r role = true → Router.has (r ++ k) role = true.
Proof. intros Hr. by rewrite has_app, Hr. Qed.

(** A role, once registered, stays registered. *)
Lemma run_call_registered role p c :
  registered role (state p) = true →
  registered role (state (run_call p c)) = true.
Proof.
  intros Hreg. run_call_cases c; auto using has_grows.
Qed.

Lemma run_registered role p cs :
  registered role (state p) = true →
  registered role (state (run p cs)) = true.
Proof.
  revert p. induction cs as [|c cs IH]; intros p Hreg; [done|].
  apply IH. by apply run_call_registered.
Qed.

(** The dispatcher stored in the callbacks object at [l], if any. *)
Definition dispatcher_at (σ : State) (l : loc) : option OutboxDispatcher :=
  dispatcher <$> objects σ !! l.

(** Once the actor role is registered no call assigns [#actorDispatcher]. *)
Lemma run_call_actor_frozen p c :
  registered "actor" (state p) = true →
  actorDispatcher (this (state (run_call p c)))
  = actorDispatcher (this (state p)).
Proof. intros Hreg. by run_call_cases c. Qed.

(** Once the outbox role is registered no call assigns [#outboxCallbacks],
    and the setter chain never touches the [dispatcher] field. *)
Lemma run_call_outbox_frozen p c :
  registered "outbox" (state p) = true →
  outboxCallbacks (this (state (run_call p c)))
  = outboxCallbacks (this (state p))
  ∧ ∀ l, dispatcher_at (state (run_call p c)) l = dispatcher_at (state p) l.
Proof.
  intros Hreg. unfold dispatcher_at.
  run_call_cases c; (split; [done|]); intros l; try done;
    match goal with
    | |- context [alter ?f ?k _ !! l] =>
        destruct (decide (k = l)) as [->|];
        [rewrite lookup_alter_eq; by destruct (_ !! l)
        |by rewrite lookup_alter_ne]
    end.
Qed.

(** Once the inbox role is registered no new listener setter is handed
    out, and without a setter the listener map cannot change. *)
Lemma run_call_inbox_frozen p c :
  registered "inbox" (state p) = true → inboxSetter p = None →
  inboxSetter (run_call p c) = None
  ∧ inboxListeners (this (state (run_call p c)))
    = inboxListeners (this (state p)).
Proof. intros Hreg Hnone. by run_call_cases c. Qed.

Lemma run_actor_frozen p cs :
  registered "actor" (state p) = true →
  actorDispatcher (this (state (run p cs))) = actorDispatcher (this (state p)).
Proof.
  revert p. induction cs as [|c cs IH]; intros p Hreg; [done|]. simpl.
  rewrite IH by by apply run_call_registered.
  by apply run_call_actor_frozen.
Qed.

Lemma run_outbox_frozen p cs :
  registered "outbox" (state p) = true →
  outboxCallbacks (this (state (run p cs))) = outboxCallbacks (this (state p))
  ∧ ∀ l, dispatcher_at (state (run p cs)) l = dispatcher_at (state p) l.
Proof.
  revert p. induction cs as [|c cs IH]; intros p Hreg; [done|]. simpl.
  destruct (IH (run_call p c)) as [-> Hl]; [by apply run_call_registered|].
  destruct (run_call_outbox_frozen p c Hreg) as [-> Hl'].
  split; [done|]. intros l. by rewrite Hl, Hl'.
Qed.

Lemma run_inbox_frozen p cs :
  registered "inbox" (state p) = true → inboxSetter p = None →
  inboxSetter (run p cs) = None
  ∧ inboxListeners (this (state (run p cs))) = inboxListeners (this (state p)).
Proof.
  revert p. induction cs as [|c cs IH]; intros p Hreg Hnone; [done|]. simpl.
  destruct (run_call_inbox_frozen p c Hreg Hnone) as [Hs <-].
  apply IH; [by apply run_call_registered | done].
Qed.

(** *** Programs over a fresh instance *)

(** A slot is empty, and its setter chain not yet handed out, as long as
    its role is not registered. *)
Definition unset_when_unregistered (p : Program) : Prop :=
  (registered "actor" (state p) = false →
     actorDispatcher (this (state p)) = None)
  ∧ (registered "outbox" (state p) = false →
     outboxCallbacks (this (state p)) = None ∧ outboxSetters p = None)
  ∧ (registered "inbox" (state p) = false →
     inboxListeners (this (state p)) = ∅ ∧ inboxSetter p = None).

Lemma new_Federation_unset parameters σ :
  new_Federation parameters = inr σ → unset_when_unregistered (start σ).
Proof.
  unfold new_Federation, Router.add.
  destruct (parse _); intros [= <-]. by repeat split.
Qed.

Lemma has_snoc_ne r path role role' :
  role ≠ role' →
  Router.has (r ++ [Router.mkRoute path role']) role = Router.has r role.
Proof.
  intros Hne. rewrite has_app. unfold Router.has at 2; simpl.
  rewrite bool_decide_eq_false_2, orb_false_r; [done|].
  by intros ?%list_elem_of_singleton.
Qed.

Lemma has_snoc_eq r path role :
  Router.has (r ++ [Router.mkRoute path role]) role = true.
Proof.
  rewrite has_app. unfold Router.has at 2; simpl.
  rewrite bool_decide_eq_true_2, orb_true_r; [done|]. constructor.
Qed.

Lemma run_call_unset p c :
  unset_when_unregistered p → unset_when_unregistered (run_call p c).
Proof.
  clear matches. intros (Ha & Ho & Hi). unfold unset_when_unregistered.
  run_call_cases c;
    rewrite ?has_snoc_eq, ?has_snoc_ne by done;
    intuition congruence.
Qed.

Lemma run_unset p cs :
  unset_when_unregistered p → unset_when_unregistered (run p cs).
Proof.
  revert p. induction cs as [|c cs IH]; intros p Hp; [done|].
  apply IH. by apply run_call_unset.
Qed.

(** *** The setter chain of the outbox *)

Lemma setCounter_eq setters c σ :
  setCounter setters c σ
  = (mkState (this σ) (alter (set_counter c) (callbacks setters) (objects σ))
       (next σ), inr setters).
Proof. done. Qed.

Lemma setFirstCursor_eq setters c σ :
  setFirstCursor setters c σ
  = (mkState (this σ)
       (alter (set_firstCursor c) (callbacks setters) (objects σ))
       (next σ), inr setters).
Proof. done. Qed.

Lemma setLastCursor_eq setters c σ :
  setLastCursor setters c σ
  = (mkState (this σ)
       (alter (set_lastCursor c) (callbacks setters) (objects σ))
       (next σ), inr setters).
Proof. done. Qed.

(** The chain a program holds closes over the very object the instance
    keeps in [#outboxCallbacks]. *)
Definition chain_shared (p : Program) : Prop :=
  ∀ setters, outboxSetters p = Some setters →
    outboxCallbacks (this (state p)) = Some (callbacks setters)
    ∧ is_Some (objects (state p) !! callbacks setters).

Lemma run_call_chain_shared p c : chain_shared p → chain_shared (run_call p c).
Proof.
  intros Hp. unfold chain_shared.
  run_call_cases c; intros setters Hs; simplify_eq/=;
    try (by apply Hp);
    try (split; [done | by rewrite lookup_insert_eq]);
    match goal with
    | Hsome : outboxSetters p = Some _ |- _ =>
        destruct (Hp _ Hsome) as [? [o Ho]]; split; [done|];
        rewrite lookup_alter_eq, Ho; by eexists
    end.
Qed.

Lemma run_chain_shared p cs : chain_shared p → chain_shared (run p cs).
Proof.
  revert p. induction cs as [|c cs IH]; intros p Hp; [done|].
  apply IH. by apply run_call_chain_shared.
Qed.

Lemma alter_lookup_Some {A} (f : A → A) (m : gmap loc A) l o :
  m !! l = Some o → alter f l m = <[l:=f o]> m.
Proof.
  intros Ho. apply map_eq; intros l'. destruct (decide (l = l')) as [<-|Hne].
  - by rewrite lookup_alter_eq, lookup_insert_eq, Ho.
  - by rewrite lookup_alter_ne, lookup_insert_ne.
Qed.

(** C5 (as amended).  The three setters of the chain carry no guard.  Let
    a program, after any calls, hold the chain [setOutboxDispatcher]
    returned.  The chain closes over the callbacks object [o] of the
    instance, and whatever [o] already holds, each of [setCounter],
    [setFirstCursor] and [setLastCursor] succeeds, returns the chain it
    was called on, and leaves in its slot of [o] the callback it was
    given, which is then the one the instance reads; the other fields of
    [o], the other objects and the instance are untouched.  A later call
    therefore replaces the callback of an earlier one. *)
Theorem chain_setters_overwrite (σ0 : State) (cs : list call)
    (setters : OutboxCallbackSetters) :
  let σ := state (run (start σ0) cs) in
  outboxSetters (run (start σ0) cs) = Some setters →
  ∃ o,
    objects σ !! callbacks setters = Some o
    ∧ outboxCallbacks (this σ) = Some (callbacks setters)
    ∧ (∀ c, setCounter setters c σ
            = (mkState (this σ)
                 (<[callbacks setters:=
                      mkOutboxCallbacks (dispatcher o) (Some c) (firstCursor o)
                        (lastCursor o)]> (objects σ))
                 (next σ), inr setters)
            ∧ outbox_field (setCounter setters c σ).1 counter = Some c)
    ∧ (∀ c, setFirstCursor setters c σ
            = (mkState (this σ)
                 (<[callbacks setters:=
                      mkOutboxCallbacks (dispatcher o) (counter o) (Some c)
                        (lastCursor o)]> (objects σ))
                 (next σ), inr setters)
            ∧ outbox_field (setFirstCursor setters c σ).1 firstCursor = Some c)
    ∧ (∀ c, setLastCursor setters c σ
            = (mkState (this σ)
                 (<[callbacks setters:=
                      mkOutboxCallbacks (dispatcher o) (counter o)
                        (firstCursor o) (Some c)]> (objects σ))
                 (next σ), inr setters)
            ∧ outbox_field (setLastCursor setters c σ).1 lastCursor = Some c).
Proof.
  intros σ Hheld.
  destruct (run_chain_shared (start σ0) cs) with (setters := setters)
    as [Hthis [o Ho]]; [by intros ? | done |].
  fold σ in Hthis, Ho. exists o. split_and!; [done|done| | |]; intros c.
  - rewrite setCounter_eq, (alter_lookup_Some _ _ _ _ Ho). split; [done|].
    unfold outbox_field; simpl. rewrite Hthis; simpl.
    by rewrite lookup_insert_eq.
  - rewrite setFirstCursor_eq, (alter_lookup_Some _ _ _ _ Ho). split; [done|].
    unfold outbox_field; simpl. rewrite Hthis; simpl.
    by rewrite lookup_insert_eq.
  - rewrite setLastCursor_eq, (alter_lookup_Some _ _ _ _ Ho). split; [done|].
    unfold outbox_field; simpl. rewrite Hthis; simpl.
    by rewrite lookup_insert_eq.
Qed.

(** *** Listener registration *)

(** C7.  [on(type, listener)] on a setter: when the listener map already
    has an entry for [type] the call throws the [TypeError] and the state,
    hence the entry, is as before; when it has none the call returns the
    setter it was called on and the map gains exactly the entry
    [type ↦ listener]. *)
Theorem on_registers_once (σ : State) (setter : InboxListenerSetter)
    (type : ActivityClass) (listener : InboxListener) :
  (∀ existing, inboxListeners (this σ) !! type = Some existing →
     on setter type listener σ
     = (σ, inl (TypeError "Listener already set for this type."))
     ∧ inboxListeners (this (on setter type listener σ).1) !! type
       = Some existing)
  ∧ (inboxListeners (this σ) !! type = None →
     on setter type listener σ
     = (mkState
          (set_inboxListeners (<[type:=listener]> (inboxListeners (this σ)))
             (this σ))
          (objects σ) (next σ), inr setter)
     ∧ inboxListeners (this (on setter type listener σ).1) !! type
       = Some listener
     ∧ ∀ other, other ≠ type →
         inboxListeners (this (on setter type listener σ).1) !! other
         = inboxListeners (this σ) !! other).
Proof.
  split.
  - intros existing Hin. run_method.
    rewrite bool_decide_eq_true_2 by by rewrite Hin. by simpl.
  - intros Hnone. run_method.
    rewrite bool_decide_eq_false_2 by (rewrite Hnone; by intros [? ?]).
    simpl. split_and!; [done|apply lookup_insert_eq|].
    intros other Hne. by apply lookup_insert_ne.
Qed.

(** *** Registration of a role *)

(** A registration that returns normally has registered its role. *)
Lemma setActorDispatcher_success path d σ :
  (setActorDispatcher path d σ).2 = inr () →
  registered "actor" σ = false ∧ parse path = inr {["handle"]}.
Proof.
  destruct (registered "actor" σ) eqn:Hreg.
  { by rewrite setActorDispatcher_registered. }
  destruct (parse path) as [message|variables] eqn:Hparse.
  { by erewrite setActorDispatcher_invalid. }
  destruct (decide (variables = {["handle"]})) as [->|Hne]; [done|].
  by erewrite setActorDispatcher_arity.
Qed.

Lemma setOutboxDispatcher_success path d σ setters :
  (setOutboxDispatcher path d σ).2 = inr setters →
  registered "outbox" σ = false ∧ parse path = inr {["handle"]}.
Proof.
  destruct (registered "outbox" σ) eqn:Hreg.
  { by rewrite setOutboxDispatcher_registered. }
  destruct (parse path) as [message|variables] eqn:Hparse.
  { by erewrite setOutboxDispatcher_invalid. }
  destruct (decide (variables = {["handle"]})) as [->|Hne]; [done|].
  by erewrite setOutboxDispatcher_arity.
Qed.

Lemma setInboxListeners_success path σ setter :
  (setInboxListeners path σ).2 = inr setter →
  registered "inbox" σ = false ∧ parse path = inr {["handle"]}.
Proof.
  destruct (registered "inbox" σ) eqn:Hreg.
  { by rewrite setInboxListeners_registered. }
  destruct (parse path) as [message|variables] eqn:Hparse.
  { by erewrite setInboxListeners_invalid. }
  destruct (decide (variables = {["handle"]})) as [->|Hne]; [done|].
  by erewrite setInboxListeners_arity.
Qed.

(** C6.  Take any program state, make a first call of a registration
    method and let any further calls follow.  If the first call left its
    role registered, which it does whenever it returns normally, then a
    second call of the same method throws the [RouterError] of a
    duplicate registration and changes nothing; the dispatcher the
    first call stored is still the one in place. *)
Theorem second_registration_fails (p : Program) (cs : list call) :
  (∀ path d path' d',
     let p1 := run_call p (CallSetActorDispatcher path d) in
     let q := state (run p1 cs) in
     ((setActorDispatcher path d (state p)).2 = inr () →
        registered "actor" (state p1) = true
        ∧ actorDispatcher (this (state p1)) = Some d)
     ∧ (registered "actor" (state p1) = true →
        setActorDispatcher path' d' q
        = (q, inl (RouterError "Actor dispatcher already set."))
        ∧ actorDispatcher (this q) = actorDispatcher (this (state p1))))
  ∧ (∀ path d path' d',
     let p1 := run_call p (CallSetOutboxDispatcher path d) in
     let q := state (run p1 cs) in
     (∀ setters, (setOutboxDispatcher path d (state p)).2 = inr setters →
        registered "outbox" (state p1) = true
        ∧ outboxCallbacks (this (state p1)) = Some (callbacks setters)
        ∧ dispatcher_at (state p1) (callbacks setters) = Some d)
     ∧ (registered "outbox" (state p1) = true →
        setOutboxDispatcher path' d' q
        = (q, inl (RouterError "Outbox dispatcher already set."))
        ∧ outboxCallbacks (this q) = outboxCallbacks (this (state p1))
        ∧ ∀ l, dispatcher_at q l = dispatcher_at (state p1) l))
  ∧ (∀ path path',
     let p1 := run_call p (CallSetInboxListeners path) in
     let q := state (run p1 cs) in
     (∀ setter, (setInboxListeners path (state p)).2 = inr setter →
        registered "inbox" (state p1) = true)
     ∧ (registered "inbox" (state p1) = true →
        setInboxListeners path' q
        = (q, inl (RouterError "Inbox already set.")))).
Proof.
  split_and!.
  - intros path d path' d' p1 q. split.
    + intros Hok. destruct (setActorDispatcher_success _ _ _ Hok) as [Hreg Hp].
      subst p1. unfold run_call.
      rewrite (setActorDispatcher_ok _ _ _ Hreg Hp). simpl.
      split; [apply has_snoc_eq | done].
    + intros Hreg. split.
      * apply setActorDispatcher_registered. by apply run_registered.
      * by apply run_actor_frozen.
  - intros path d path' d' p1 q. split.
    + intros setters Hok.
      destruct (setOutboxDispatcher_success _ _ _ _ Hok) as [Hreg Hp].
      subst p1. unfold run_call.
      rewrite (setOutboxDispatcher_ok _ _ _ Hreg Hp) in Hok |- *.
      simpl in *. simplify_eq/=. unfold dispatcher_at; simpl.
      split_and!; [apply has_snoc_eq | done | by rewrite lookup_insert_eq].
    + intros Hreg. split.
      * apply setOutboxDispatcher_registered. by apply run_registered.
      * by apply run_outbox_frozen.
  - intros path path' p1 q. split.
    + intros setter Hok.
      destruct (setInboxListeners_success _ _ _ Hok) as [Hreg Hp].
      subst p1. unfold run_call.
      rewrite (setInboxListeners_ok _ _ Hreg Hp). simpl. apply has_snoc_eq.
    + intros Hreg. apply setInboxListeners_registered.
      by apply run_registered.
Qed.

(** Every failure of a registration method is a [RouterError], and only
    the router can have changed. *)
Lemma setActorDispatcher_failure path d σ :
  parse path ≠ inr {["handle"]} →
  ∃ message,
    (setActorDispatcher path d σ).2 = inl (RouterError message)
    ∧ actorDispatcher (this (setActorDispatcher path d σ).1)
      = actorDispatcher (this σ).
Proof.
  intros Hp. destruct (registered "actor" σ) eqn:Hreg.
  { rewrite setActorDispatcher_registered by done. by eexists. }
  destruct (parse path) as [message|variables] eqn:Hparse.
  { erewrite setActorDispatcher_invalid by done. by eexists. }
  erewrite setActorDispatcher_arity by (done || congruence). by eexists.
Qed.

Lemma setOutboxDispatcher_failure path d σ :
  parse path ≠ inr {["handle"]} →
  ∃ message,
    (setOutboxDispatcher path d σ).2 = inl (RouterError message)
    ∧ outboxCallbacks (this (setOutboxDispatcher path d σ).1)
      = outboxCallbacks (this σ)
    ∧ objects (setOutboxDispatcher path d σ).1 = objects σ.
Proof.
  intros Hp. destruct (registered "outbox" σ) eqn:Hreg.
  { rewrite setOutboxDispatcher_registered by done. by eexists. }
  destruct (parse path) as [message|variables] eqn:Hparse.
  { erewrite setOutboxDispatcher_invalid by done. by eexists. }
  erewrite setOutboxDispatcher_arity by (done || congruence). by eexists.
Qed.

Lemma setInboxListeners_failure path σ :
  parse path ≠ inr {["handle"]} →
  ∃ message,
    (setInboxListeners path σ).2 = inl (RouterError message)
    ∧ inboxListeners (this (setInboxListeners path σ).1)
      = inboxListeners (this σ).
Proof.
  intros Hp. destruct (registered "inbox" σ) eqn:Hreg.
  { rewrite setInboxListeners_registered by done. by eexists. }
  destruct (parse path) as [message|variables] eqn:Hparse.
  { erewrite setInboxListeners_invalid by done. by eexists. }
  erewrite setInboxListeners_arity by (done || congruence). by eexists.
Qed.

(** C8.  A path pattern whose variables are not exactly [{handle}] (or
    which has no variables at all because it does not parse) makes each
    of the three registration methods throw a [RouterError], with the
    dispatcher slot, the callbacks objects and the listener map as they
    were.  Conversely a call that returns normally was given a pattern
    whose variable set is the singleton [{handle}], and has stored its
    dispatcher; and on a role not yet registered such a pattern does make
    the call return normally. *)
Theorem registration_requires_handle (σ : State) (path : string) :
  (parse path ≠ inr {["handle"]} →
     (∀ d, ∃ message,
        (setActorDispatcher path d σ).2 = inl (RouterError message)
        ∧ actorDispatcher (this (setActorDispatcher path d σ).1)
          = actorDispatcher (this σ))
     ∧ (∀ d, ∃ message,
        (setOutboxDispatcher path d σ).2 = inl (RouterError message)
        ∧ outboxCallbacks (this (setOutboxDispatcher path d σ).1)
          = outboxCallbacks (this σ)
        ∧ objects (setOutboxDispatcher path d σ).1 = objects σ)
     ∧ (∃ message,
        (setInboxListeners path σ).2 = inl (RouterError message)
        ∧ inboxListeners (this (setInboxListeners path σ).1)
          = inboxListeners (this σ)))
  ∧ ((∀ d, (setActorDispatcher path d σ).2 = inr () →
        parse path = inr {["handle"]}
        ∧ actorDispatcher (this (setActorDispatcher path d σ).1) = Some d)
     ∧ (∀ d setters, (setOutboxDispatcher path d σ).2 = inr setters →
        parse path = inr {["handle"]}
        ∧ outboxCallbacks (this (setOutboxDispatcher path d σ).1)
          = Some (callbacks setters)
        ∧ dispatcher_at (setOutboxDispatcher path d σ).1 (callbacks setters)
          = Some d)
     ∧ (∀ setter, (setInboxListeners path σ).2 = inr setter →
        parse path = inr {["handle"]}))
  ∧ (parse path = inr {["handle"]} →
     (∀ d, registered "actor" σ = false →
        (setActorDispatcher path d σ).2 = inr ())
     ∧ (∀ d, registered "outbox" σ = false →
        ∃ setters, (setOutboxDispatcher path d σ).2 = inr setters)
     ∧ (registered "inbox" σ = false →
        ∃ setter, (setInboxListeners path σ).2 = inr setter)).
Proof.
  split_and!.
  - intros Hp. split_and!; intros.
    + by apply setActorDispatcher_failure.
    + by apply setOutboxDispatcher_failure.
    + by apply setInboxListeners_failure.
  - intros d Hok. destruct (setActorDispatcher_success _ _ _ Hok) as [Hreg Hp].
    split; [done|]. by rewrite (setActorDispatcher_ok _ _ _ Hreg Hp).
  - intros d setters Hok.
    destruct (setOutboxDispatcher_success _ _ _ _ Hok) as [Hreg Hp].
    split; [done|].
    rewrite (setOutboxDispatcher_ok _ _ _ Hreg Hp) in Hok |- *.
    simpl in *. simplify_eq/=. unfold dispatcher_at; simpl.
    by rewrite lookup_insert_eq.
  - intros setter Hok.
    by destruct (setInboxListeners_success _ _ _ Hok).
  - intros Hp. split_and!.
    + intros d Hreg. by rewrite (setActorDispatcher_ok _ _ _ Hreg Hp).
    + intros d Hreg. rewrite (setOutboxDispatcher_ok _ _ _ Hreg Hp).
      by eexists.
    + intros Hreg. rewrite (setInboxListeners_ok _ _ Hreg Hp). by eexists.
Qed.

(** *** Dispatch *)

(** C9.  When the router finds no route for the path of the request,
    [handle] returns what [onNotFound] returns for that request; and so
    it does when the route found carries a name other than [webfinger],
    [actor], [outbox] and [inbox]. *)
Theorem handle_not_found (σ : State) (request : Web.Request)
    (parameters : FederationHandlerParameters) :
  (Router.route matches (router (this σ)) (Web.pathname (Web.url request))
   = None →
     handle σ request parameters = onNotFound parameters request)
  ∧ (∀ name values,
     Router.route matches (router (this σ)) (Web.pathname (Web.url request))
     = Some (name, values) →
     name ∉ ["webfinger"; "actor"; "outbox"; "inbox"] →
     handle σ request parameters = onNotFound parameters request).
Proof.
  unfold handle. split.
  - by intros ->.
  - intros name values -> Hname.
    repeat case_decide; try done; subst name; set_solver.
Qed.

(** *** A failed arity check leaves the route behind *)

(** C10.  On an instance built by the constructor and driven by any
    calls, let a registration method be called, for a role not yet
    registered, with a pattern that parses but whose variables are not
    exactly [{handle}].  The call throws the arity error, yet the router
    has gained the route.  From then on, whatever calls follow, every
    call of that method throws the duplicate-registration error, while
    the slot of the role is still empty: no actor dispatcher, no outbox
    callbacks, no listener. *)
Theorem failed_registration_blocks_role (parameters : FederationParameters)
    (σ0 : State) (cs cs' : list call) (path : string)
    (variables : gset string) :
  new_Federation parameters = inr σ0 →
  parse path = inr variables →
  variables ≠ {["handle"]} →
  let p := run (start σ0) cs in
  (∀ d path' d',
     registered "actor" (state p) = false →
     let p1 := run_call p (CallSetActorDispatcher path d) in
     let q := state (run p1 cs') in
     (setActorDispatcher path d (state p)).2
     = inl (RouterError
              "Path for actor dispatcher must have one variable: {handle}")
     ∧ router (this (state p1))
       = router (this (state p)) ++ [Router.mkRoute path "actor"]
     ∧ setActorDispatcher path' d' q
       = (q, inl (RouterError "Actor dispatcher already set."))
     ∧ actorDispatcher (this q) = None)
  ∧ (∀ d path' d',
     registered "outbox" (state p) = false →
     let p1 := run_call p (CallSetOutboxDispatcher path d) in
     let q := state (run p1 cs') in
     (setOutboxDispatcher path d (state p)).2
     = inl (RouterError
              "Path for outbox dispatcher must have one variable: {handle}")
     ∧ router (this (state p1))
       = router (this (state p)) ++ [Router.mkRoute path "outbox"]
     ∧ setOutboxDispatcher path' d' q
       = (q, inl (RouterError "Outbox dispatcher already set."))
     ∧ outboxCallbacks (this q) = None)
  ∧ (∀ path',
     registered "inbox" (state p) = false →
     let p1 := run_call p (CallSetInboxListeners path) in
     let q := state (run p1 cs') in
     (setInboxListeners path (state p)).2
     = inl (RouterError "Path for inbox must have one variable: {handle}")
     ∧ router (this (state p1))
       = router (this (state p)) ++ [Router.mkRoute path "inbox"]
     ∧ setInboxListeners path' q = (q, inl (RouterError "Inbox already set."))
     ∧ inboxListeners (this q) = ∅).
Proof.
  intros Hnew Hparse Hne p.
  assert (Hp : unset_when_unregistered p).
  { apply run_unset. by eapply new_Federation_unset. }
  destruct Hp as (Ha & Ho & Hi). split_and!.
  - intros d path' d' Hreg p1 q. subst p1 q. unfold run_call.
    rewrite (setActorDispatcher_arity _ _ _ _ Hreg Hparse Hne). simpl.
    set (p1 := mkProgram _ _ _).
    assert (registered "actor" (state p1) = true) as Hreg1
      by apply has_with_route.
    split_and!; [done|done| |].
    + apply setActorDispatcher_registered. by apply run_registered.
    + rewrite run_actor_frozen by done. simpl. by apply Ha.
  - intros d path' d' Hreg p1 q. subst p1 q. unfold run_call.
    rewrite (setOutboxDispatcher_arity _ _ _ _ Hreg Hparse Hne). simpl.
    set (p1 := mkProgram _ _ _).
    assert (registered "outbox" (state p1) = true) as Hreg1
      by apply has_with_route.
    split_and!; [done|done| |].
    + apply setOutboxDispatcher_registered. by apply run_registered.
    + destruct (run_outbox_frozen p1 cs' Hreg1) as [-> _]. simpl.
      by apply Ho.
  - intros path' Hreg p1 q. subst p1 q. unfold run_call.
    rewrite (setInboxListeners_arity _ _ _ Hreg Hparse Hne). simpl.
    set (p1 := mkProgram _ _ _).
    assert (registered "inbox" (state p1) = true) as Hreg1
      by apply has_with_route.
    destruct (Hi Hreg) as [Hempty Hnone].
    split_and!; [done|done| |].
    + apply setInboxListeners_registered. by apply run_registered.
    + destruct (run_inbox_frozen p1 cs' Hreg1) as [_ ->]; [done|].
      by simpl.
Qed.

(** *** Further properties of the registry *)

(** X1.  A registration method only ever touches its own role and its own
    slot: whether it returns or throws, the other roles are registered
    exactly as before, and the slots of the other roles, the listener map
    and the error handler are as before; [setOutboxDispatcher] creates at
    most the one object it returns a chain for. *)
Theorem registration_frame (σ : State) (path : string) :
  (∀ d, let σ' := (setActorDispatcher path d σ).1 in
     (∀ role, role ≠ "actor" → registered role σ' = registered role σ)
     ∧ outboxCallbacks (this σ') = outboxCallbacks (this σ)
     ∧ objects σ' = objects σ
     ∧ inboxListeners (this σ') = inboxListeners (this σ)
     ∧ inboxErrorHandler (this σ') = inboxErrorHandler (this σ))
  ∧ (∀ d, let σ' := (setOutboxDispatcher path d σ).1 in
     (∀ role, role ≠ "outbox" → registered role σ' = registered role σ)
     ∧ actorDispatcher (this σ') = actorDispatcher (this σ)
     ∧ (∀ l, l ≠ next σ → objects σ' !! l = objects σ !! l)
     ∧ inboxListeners (this σ') = inboxListeners (this σ)
     ∧ inboxErrorHandler (this σ') = inboxErrorHandler (this σ))
  ∧ (let σ' := (setInboxListeners path σ).1 in
     (∀ role, role ≠ "inbox" → registered role σ' = registered role σ)
     ∧ actorDispatcher (this σ') = actorDispatcher (this σ)
     ∧ outboxCallbacks (this σ') = outboxCallbacks (this σ)
     ∧ objects σ' = objects σ
     ∧ inboxListeners (this σ') = inboxListeners (this σ)
     ∧ inboxErrorHandler (this σ') = inboxErrorHandler (this σ)).
Proof.
  split_and!.
  - intros d σ'. subst σ'. run_method.
    repeat (case_match; simplify_eq/=); split_and!; try done;
      intros role Hrole; by rewrite ?has_snoc_ne.
  - intros d σ'. subst σ'. run_method.
    repeat (case_match; simplify_eq/=); split_and!; try done;
      try (intros role Hrole; by rewrite ?has_snoc_ne).
    intros l Hl. by rewrite lookup_insert_ne.
  - intros σ'. subst σ'. run_method.
    repeat (case_match; simplify_eq/=); split_and!; try done;
      intros role Hrole; by rewrite ?has_snoc_ne.
Qed.

(** X2.  The three setters of an outbox chain are independent: any two of
    them commute, and each leaves what the instance reads in the other
    two slots and as dispatcher unchanged. *)
Theorem chain_setters_commute (σ : State) (setters : OutboxCallbackSetters)
    (c : OutboxCounter) (f l : OutboxCursor) :
  (setFirstCursor setters f (setCounter setters c σ).1).1
  = (setCounter setters c (setFirstCursor setters f σ).1).1
  ∧ (setLastCursor setters l (setCounter setters c σ).1).1
    = (setCounter setters c (setLastCursor setters l σ).1).1
  ∧ (setLastCursor setters l (setFirstCursor setters f σ).1).1
    = (setFirstCursor setters f (setLastCursor setters l σ).1).1
  ∧ (let σ' := (setCounter setters c σ).1 in
     outbox_field σ' (λ o, Some (dispatcher o))
     = outbox_field σ (λ o, Some (dispatcher o))
     ∧ outbox_field σ' firstCursor = outbox_field σ firstCursor
     ∧ outbox_field σ' lastCursor = outbox_field σ lastCursor)
  ∧ (let σ' := (setFirstCursor setters f σ).1 in
     outbox_field σ' (λ o, Some (dispatcher o))
     = outbox_field σ (λ o, Some (dispatcher o))
     ∧ outbox_field σ' counter = outbox_field σ counter
     ∧ outbox_field σ' lastCursor = outbox_field σ lastCursor)
  ∧ (let σ' := (setLastCursor setters l σ).1 in
     outbox_field σ' (λ o, Some (dispatcher o))
     = outbox_field σ (λ o, Some (dispatcher o))
     ∧ outbox_field σ' counter = outbox_field σ counter
     ∧ outbox_field σ' firstCursor = outbox_field σ firstCursor).
Proof.
  assert (Hread : ∀ {A} (g : OutboxCallbacks → OutboxCallbacks)
            (field : OutboxCallbacks → option A),
            (∀ o, field (g o) = field o) →
            outbox_field
              (mkState (this σ) (alter g (callbacks setters) (objects σ))
                 (next σ)) field
            = outbox_field σ field).
  { intros A g field Hg. unfold outbox_field; simpl.
    destruct (outboxCallbacks (this σ)) as [k|]; [simpl|done].
    destruct (decide (callbacks setters = k)) as [->|Hne].
    - rewrite lookup_alter_eq. destruct (objects σ !! k); simpl; [apply Hg|done].
    - by rewrite lookup_alter_ne. }
  rewrite !setCounter_eq, !setFirstCursor_eq, !setLastCursor_eq. simpl.
  split_and!; try (by apply Hread);
    f_equal; rewrite !alter_alter_eq; apply alter_ext; by intros [] ?.
Qed.

(** X3.  [on] and [onError] of a listener setter are independent:
    [onError] never throws, returns the setter and leaves the listener
    map alone, [on] leaves the error handler alone whether it returns or
    throws, and the two can be called in either order with the same
    final state and the same outcome of [on]. *)
Theorem on_onError_independent (σ : State) (setter : InboxListenerSetter)
    (type : ActivityClass) (listener : InboxListener)
    (handler : InboxErrorHandler) :
  (onError setter handler σ).2 = inr setter
  ∧ inboxErrorHandler (this (onError setter handler σ).1) = Some handler
  ∧ inboxListeners (this (onError setter handler σ).1)
    = inboxListeners (this σ)
  ∧ inboxErrorHandler (this (on setter type listener σ).1)
    = inboxErrorHandler (this σ)
  ∧ (on setter type listener (onError setter handler σ).1).1
    = (onError setter handler (on setter type listener σ).1).1
  ∧ (on setter type listener (onError setter handler σ).1).2
    = (on setter type listener σ).2.
Proof.
  run_method. split_and!; try done;
    destruct (bool_decide (is_Some (inboxListeners (this σ) !! type))); done.
Qed.

(** X4.  A listener, once in the map, stays: no sequence of calls removes
    it or puts another listener in its place. *)
Theorem listeners_persist (p : Program) (cs : list call)
    (type : ActivityClass) (listener : InboxListener) :
  inboxListeners (this (state p)) !! type = Some listener →
  inboxListeners (this (state (run p cs))) !! type = Some listener.
Proof.
  revert p. induction cs as [|c cs IH]; intros p Hin; [done|].
  apply IH. clear IH.
  run_call_cases c; try done.
  match goal with
  | Hnew : bool_decide (is_Some (_ !! ?t)) = false |- _ =>
      destruct (decide (t = type)) as [->|Hne];
      [rewrite Hin in Hnew; apply bool_decide_eq_false in Hnew;
       destruct Hnew; by eexists
      |by rewrite lookup_insert_ne]
  end.
Qed.

(** X5.  Listeners for pairwise distinct activity classes, none of which
    has a listener yet, are all accepted by successive [on] calls on the
    setter, and the listener map ends up with exactly these entries added
    to the ones it had. *)
Theorem on_distinct_types (p : Program) (setter : InboxListenerSetter)
    (pairs : list (ActivityClass * InboxListener)) :
  inboxSetter p = Some setter →
  NoDup pairs.*1 →
  (∀ type, type ∈ pairs.*1 → inboxListeners (this (state p)) !! type = None) →
  inboxListeners (this (state (run p ((λ tl, CallOn tl.1 tl.2) <$> pairs))))
  = list_to_map pairs ∪ inboxListeners (this (state p)).
Proof.
  revert p. induction pairs as [|[type listener] pairs IH];
    intros p Hsetter Hnd Hfresh.
  { simpl. by rewrite (left_id_L ∅ (∪)). }
  rewrite fmap_cons in Hnd. apply NoDup_cons in Hnd as [Hhead Hnd].
  simpl in Hhead, Hnd, Hfresh.
  assert (Hnone : inboxListeners (this (state p)) !! type = None).
  { apply Hfresh. constructor. }
  assert (Heq : on setter type listener (state p)
                = (mkState
                     (set_inboxListeners
                        (<[type:=listener]> (inboxListeners (this (state p))))
                        (this (state p)))
                     (objects (state p)) (next (state p)), inr setter)).
  { unfold on, read, write, throw, mbind, mret, M_bind, M_ret; simpl.
    by rewrite bool_decide_eq_false_2 by (rewrite Hnone; by intros [? ?]). }
  assert (Hstep : run_call p (CallOn type listener)
                  = mkProgram (on setter type listener (state p)).1
                      (outboxSetters p) (inboxSetter p)).
  { unfold run_call, via. by rewrite Hsetter. }
  rewrite fmap_cons. cbn [fst snd].
  change (run p (CallOn type listener :: ?cs))
    with (run (run_call p (CallOn type listener)) cs).
  rewrite Hstep, IH; [|done|done|].
  - rewrite Heq. simpl. rewrite <- insert_union_l.
    rewrite insert_union_r; [done|].
    apply not_elem_of_list_to_map_1. done.
  - intros type' Hin'. rewrite Heq. simpl. rewrite lookup_insert_ne.
    + apply Hfresh. by constructor.
    + intros ->. done.
Qed.

Lemma has_false (r : Router.t) (role : string) :
  Router.has r role = false ↔ role ∉ Router.name <$> r.
Proof. unfold Router.has. apply bool_decide_eq_false. Qed.

Lemma NoDup_names_snoc (r : Router.t) (path role : string) :
  Router.has r role = false → NoDup (Router.name <$> r) →
  NoDup (Router.name <$> r ++ [Router.mkRoute path role]).
Proof.
  intros Hhas%has_false Hnd. rewrite fmap_app. apply NoDup_app.
  split_and!; [done| |apply NoDup_singleton].
  intros x Hx ->%list_elem_of_singleton. done.
Qed.

(** The routes of an instance: the WebFinger route of the constructor
    first, no role twice, and no role beyond the four [handle] serves. *)
Definition routes_well_formed (r : Router.t) : Prop :=
  head r = Some (Router.mkRoute "/.well-known/webfinger" "webfinger")
  ∧ NoDup (Router.name <$> r)
  ∧ ∀ role, role ∈ Router.name <$> r →
      role ∈ ["webfinger"; "actor"; "outbox"; "inbox"].

Lemma run_call_routes p c :
  routes_well_formed (router (this (state p))) →
  routes_well_formed (router (this (state (run_call p c)))).
Proof.
  intros (Hhead & Hnd & Hroles). unfold routes_well_formed.
  run_call_cases c; try done;
    (split_and!;
     [by rewrite head_app, Hhead
     |by apply NoDup_names_snoc
     |intros role; rewrite fmap_app, elem_of_app;
      intros [?| ->%list_elem_of_singleton]; [by apply Hroles|];
      repeat constructor]).
Qed.

(** X6.  On an instance built by the constructor, after any calls, the
    router holds the WebFinger route first, at most one route for each
    role, and routes for no role other than [webfinger], [actor],
    [outbox] and [inbox]. *)
Theorem one_route_per_role (parameters : FederationParameters) (σ0 : State)
    (cs : list call) :
  new_Federation parameters = inr σ0 →
  routes_well_formed (router (this (state (run (start σ0) cs)))).
Proof.
  intros Hnew.
  assert (H0 : routes_well_formed (router (this (state (start σ0))))).
  { unfold new_Federation, Router.add in Hnew.
    destruct (parse _); simplify_eq/=. unfold routes_well_formed; simpl.
    split_and!; [done|apply NoDup_singleton|].
    intros role ->%list_elem_of_singleton. constructor. }
  revert H0. generalize (start σ0). clear Hnew.
  induction cs as [|c cs IH]; intros p Hp; [done|].
  apply IH. by apply run_call_routes.
Qed.

(** X7.  The document loader and the HTTPS flag are fixed by the
    constructor, to the parameter given or else to [fetchDocumentLoader]
    and [false], and no call changes them. *)
Theorem configuration_fixed (parameters : FederationParameters) (σ0 : State)
    (cs : list call) :
  new_Federation parameters = inr σ0 →
  documentLoader (this (state (run (start σ0) cs)))
  = default fetchDocumentLoader (param_documentLoader parameters)
  ∧ treatHttps (this (state (run (start σ0) cs)))
    = default false (param_treatHttps parameters).
Proof.
  intros Hnew.
  assert (H0 : documentLoader (this (state (start σ0)))
               = default fetchDocumentLoader (param_documentLoader parameters)
               ∧ treatHttps (this (state (start σ0)))
                 = default false (param_treatHttps parameters)).
  { unfold new_Federation, Router.add in Hnew.
    destruct (parse _); by simplify_eq/=. }
  revert H0. generalize (start σ0). clear Hnew.
  induction cs as [|c cs IH]; intros p Hp; [done|].
  apply IH. clear IH. by run_call_cases c.
Qed.

(** *** From registration to dispatch *)

Lemma route_app (r k : Router.t) (path : string) :
  Router.route matches (r ++ k) path
  = match Router.route matches r path with
    | Some found => Some found
    | None => Router.route matches k path
    end.
Proof.
  induction r as [|rt r IH]; [done|]. simpl.
  by destruct (matches (Router.pattern rt) path).
Qed.

Lemma route_name_in (r : Router.t) (path name : string) values :
  Router.route matches r path = Some (name, values) →
  name ∈ Router.name <$> r.
Proof.
  induction r as [|rt r IH]; [done|]. simpl.
  destruct (matches (Router.pattern rt) path).
  - intros [= <- _]. constructor.
  - intros Hr. constructor. by apply IH.
Qed.

(** The route found once [path] has been added under [role] to a router
    none of whose routes matches the request. *)
Lemma route_added (r : Router.t) (path role pathname : string) values :
  Router.route matches r pathname = None →
  matches path pathname = Some values →
  Router.route matches (r ++ [Router.mkRoute path role]) pathname
  = Some (role, values).
Proof. intros Hr Hm. rewrite route_app, Hr. simpl. by rewrite Hm. Qed.

(** X8.  Once [setActorDispatcher(path, d)] has returned, a request whose
    path matches [path], and no route registered before, is answered by
    [handleActor], called with [d] as dispatcher, the value bound to
    [handle] by the match, the document loader of the instance and the
    two callbacks of the caller; and a request the router already gave
    to [webfinger] is answered by [handleWebFinger], now called with [d]
    as dispatcher. *)
Theorem actor_requests_reach_dispatcher (σ : State) (path : string)
    (d : ActorDispatcher) (request : Web.Request)
    (parameters : FederationHandlerParameters) :
  (setActorDispatcher path d σ).2 = inr () →
  let σ' := (setActorDispatcher path d σ).1 in
  let context :=
    mkContext (router (this σ')) (documentLoader (this σ)) request
      (contextData parameters) (treatHttps (this σ)) in
  (∀ values,
     Router.route matches (router (this σ)) (Web.pathname (Web.url request))
     = None →
     matches path (Web.pathname (Web.url request)) = Some values →
     handle σ' request parameters
     = handleActor request
         (mkActorHandlerParameters (values !! "handle") context
            (documentLoader (this σ)) (Some d)
            (onNotFound parameters) (onNotAcceptable parameters)))
  ∧ (∀ values,
     Router.route matches (router (this σ)) (Web.pathname (Web.url request))
     = Some ("webfinger", values) →
     handle σ' request parameters
     = handleWebFinger request
         (mkWebFingerHandlerParameters context (Some d)
            (onNotFound parameters))).
Proof.
  intros Hok σ' context. subst σ' context.
  destruct (setActorDispatcher_success _ _ _ Hok) as [Hreg Hp].
  rewrite (setActorDispatcher_ok _ _ _ Hreg Hp). unfold handle; simpl. split.
  - intros values Hnone Hmatch.
    by rewrite (route_added _ _ "actor" _ _ Hnone Hmatch).
  - intros values Hwf. by rewrite route_app, Hwf.
Qed.

(** X9.  Once [setOutboxDispatcher(path, d)] has returned a chain, a
    request whose path matches [path], and no route registered before,
    is answered by [handleOutbox], called with [d] as dispatcher and no
    counter and no cursor callbacks; and after [setCounter(c)],
    [setFirstCursor(f)] and [setLastCursor(l)] on the chain, with [d],
    [c], [f] and [l]. *)
Theorem outbox_requests_reach_callbacks (σ : State) (path : string)
    (d : OutboxDispatcher) (setters : OutboxCallbackSetters)
    (c : OutboxCounter) (f l : OutboxCursor) (request : Web.Request)
    (parameters : FederationHandlerParameters) (values : gmap string string) :
  (setOutboxDispatcher path d σ).2 = inr setters →
  Router.route matches (router (this σ)) (Web.pathname (Web.url request))
  = None →
  matches path (Web.pathname (Web.url request)) = Some values →
  let σ1 := (setOutboxDispatcher path d σ).1 in
  let σ2 :=
    (setLastCursor setters l
       (setFirstCursor setters f (setCounter setters c σ1).1).1).1 in
  let context :=
    mkContext (router (this σ1)) (documentLoader (this σ)) request
      (contextData parameters) (treatHttps (this σ)) in
  handle σ1 request parameters
  = handleOutbox request
      (mkOutboxHandlerParameters (values !! "handle") context
         (documentLoader (this σ)) (Some d) None None None
         (onNotFound parameters) (onNotAcceptable parameters))
  ∧ handle σ2 request parameters
    = handleOutbox request
        (mkOutboxHandlerParameters (values !! "handle") context
           (documentLoader (this σ)) (Some d) (Some c) (Some f) (Some l)
           (onNotFound parameters) (onNotAcceptable parameters)).
Proof.
  intros Hok Hnone Hmatch σ1 σ2 context. subst σ1 σ2 context.
  destruct (setOutboxDispatcher_success _ _ _ _ Hok) as [Hreg Hp].
  rewrite (setOutboxDispatcher_ok _ _ _ Hreg Hp) in Hok |- *.
  simpl in Hok. simplify_eq/=.
  unfold handle, outbox_field; simpl.
  rewrite (route_added _ _ "outbox" _ _ Hnone Hmatch). simpl.
  rewrite !lookup_alter_eq, !lookup_insert_eq. by simpl.
Qed.

(** X10.  Once [setInboxListeners(path)] has returned a setter, a request
    whose path matches [path], and no route registered before, is
    answered by [handleInbox], called with the listener map, the error
    handler and the actor dispatcher of the instance; after
    [on(type, listener)] for a class without listener and
    [onError(handler)], the map handed over has gained that listener and
    the error handler is [handler]. *)
Theorem inbox_requests_reach_listeners (σ : State) (path : string)
    (setter : InboxListenerSetter) (type : ActivityClass)
    (listener : InboxListener) (handler : InboxErrorHandler)
    (request : Web.Request) (parameters : FederationHandlerParameters)
    (values : gmap string string) :
  (setInboxListeners path σ).2 = inr setter →
  Router.route matches (router (this σ)) (Web.pathname (Web.url request))
  = None →
  matches path (Web.pathname (Web.url request)) = Some values →
  inboxListeners (this σ) !! type = None →
  let σ1 := (setInboxListeners path σ).1 in
  let σ2 := (onError setter handler (on setter type listener σ1).1).1 in
  let context :=
    mkContext (router (this σ1)) (documentLoader (this σ)) request
      (contextData parameters) (treatHttps (this σ)) in
  handle σ1 request parameters
  = handleInbox request
      (mkInboxHandlerParameters (values !! "handle") context
         (documentLoader (this σ)) (actorDispatcher (this σ))
         (inboxListeners (this σ)) (inboxErrorHandler (this σ))
         (onNotFound parameters))
  ∧ handle σ2 request parameters
    = handleInbox request
        (mkInboxHandlerParameters (values !! "handle") context
           (documentLoader (this σ)) (actorDispatcher (this σ))
           (<[type:=listener]> (inboxListeners (this σ))) (Some handler)
           (onNotFound parameters)).
Proof.
  intros Hok Hnone Hmatch Hfresh σ1 σ2 context. subst σ1 σ2 context.
  destruct (setInboxListeners_success _ _ _ Hok) as [Hreg Hp].
  rewrite (setInboxListeners_ok _ _ Hreg Hp). simpl.
  unfold handle; simpl.
  rewrite (route_added _ _ "inbox" _ _ Hnone Hmatch). simpl.
  split; [done|].
  unfold on, onError, read, write, throw, mbind, mret, M_bind, M_ret; simpl.
  rewrite bool_decide_eq_false_2 by (rewrite Hfresh; by intros [? ?]). simpl.
  by rewrite (route_added _ _ "inbox" _ _ Hnone Hmatch).
Qed.

(** X11.  A pattern rejected by the arity check is served all the same:
    after the failed call, a request whose path matches the rejected
    pattern, and no route registered before, is not given to
    [onNotFound] but to the handler of the role, called with whatever the
    slot of the role held before the call. *)
Theorem rejected_pattern_is_served (σ : State) (path : string)
    (variables : gset string) (request : Web.Request)
    (parameters : FederationHandlerParameters) (values : gmap string string) :
  parse path = inr variables →
  variables ≠ {["handle"]} →
  Router.route matches (router (this σ)) (Web.pathname (Web.url request))
  = None →
  matches path (Web.pathname (Web.url request)) = Some values →
  (∀ d, registered "actor" σ = false →
     let σ' := (setActorDispatcher path d σ).1 in
     handle σ' request parameters
     = handleActor request
         (mkActorHandlerParameters (values !! "handle")
            (mkContext (router (this σ')) (documentLoader (this σ)) request
               (contextData parameters) (treatHttps (this σ)))
            (documentLoader (this σ)) (actorDispatcher (this σ))
            (onNotFound parameters) (onNotAcceptable parameters)))
  ∧ (∀ d, registered "outbox" σ = false →
     let σ' := (setOutboxDispatcher path d σ).1 in
     handle σ' request parameters
     = handleOutbox request
         (mkOutboxHandlerParameters (values !! "handle")
            (mkContext (router (this σ')) (documentLoader (this σ)) request
               (contextData parameters) (treatHttps (this σ)))
            (documentLoader (this σ))
            (outbox_field σ (λ o, Some (dispatcher o)))
            (outbox_field σ counter) (outbox_field σ firstCursor)
            (outbox_field σ lastCursor)
            (onNotFound parameters) (onNotAcceptable parameters)))
  ∧ (registered "inbox" σ = false →
     let σ' := (setInboxListeners path σ).1 in
     handle σ' request parameters
     = handleInbox request
         (mkInboxHandlerParameters (values !! "handle")
            (mkContext (router (this σ')) (documentLoader (this σ)) request
               (contextData parameters) (treatHttps (this σ)))
            (documentLoader (this σ)) (actorDispatcher (this σ))
            (inboxListeners (this σ)) (inboxErrorHandler (this σ))
            (onNotFound parameters))).
Proof.
  intros Hparse Hne Hnone Hmatch. split_and!.
  - intros d Hreg σ'. subst σ'.
    rewrite (setActorDispatcher_arity _ _ _ _ Hreg Hparse Hne).
    unfold handle; simpl.
    by rewrite (route_added _ _ "actor" _ _ Hnone Hmatch).
  - intros d Hreg σ'. subst σ'.
    rewrite (setOutboxDispatcher_arity _ _ _ _ Hreg Hparse Hne).
    unfold handle; simpl.
    by rewrite (route_added _ _ "outbox" _ _ Hnone Hmatch).
  - intros Hreg σ'. subst σ'.
    rewrite (setInboxListeners_arity _ _ _ Hreg Hparse Hne).
    unfold handle; simpl.
    by rewrite (route_added _ _ "inbox" _ _ Hnone Hmatch).
Qed.

(** *** The order of registration *)

Lemma permutation_pair {A} (a b : A) (l : list A) :
  l ≡ₚ [a; b] → l = [a; b] ∨ l = [b; a].
Proof.
  intros (k1 & k2 & -> & Hk)%Permutation_cons_inv_r.
  symmetry in Hk. apply Permutation_singleton_r in Hk.
  destruct k1 as [|x [|y k1]]; simplify_eq/=; auto.
Qed.

Lemma permutation_triple {A} (a b c : A) (l : list A) :
  l ≡ₚ [a; b; c] →
  l ∈ [[a; b; c]; [a; c; b]; [b; a; c]; [c; a; b]; [b; c; a]; [c; b; a]].
Proof.
  intros (k1 & k2 & -> & Hk)%Permutation_cons_inv_r.
  symmetry in Hk. apply permutation_pair in Hk.
  destruct k1 as [|x [|y [|z k1]]]; destruct Hk; simplify_eq/=;
    try (repeat constructor; fail).
  all: match goal with
       | Hk : _ = _ |- _ =>
           apply (f_equal length) in Hk; simpl in Hk;
           rewrite length_app in Hk; simpl in Hk; lia
       end.
Qed.

(** The steps of a program that registers a role with a [{handle}]
    pattern. *)
Lemma run_call_actor_ok p path d :
  registered "actor" (state p) = false → parse path = inr {["handle"]} →
  run_call p (CallSetActorDispatcher path d)
  = mkProgram
      (mkState (set_actorDispatcher d (this (with_route path "actor" (state p))))
         (objects (state p)) (next (state p)))
      (outboxSetters p) (inboxSetter p).
Proof. intros Hreg Hp. unfold run_call. by rewrite setActorDispatcher_ok. Qed.

Lemma run_call_outbox_ok p path d :
  registered "outbox" (state p) = false → parse path = inr {["handle"]} →
  run_call p (CallSetOutboxDispatcher path d)
  = mkProgram
      (mkState
         (set_outboxCallbacks (next (state p))
            (this (with_route path "outbox" (state p))))
         (<[next (state p):=mkOutboxCallbacks d None None None]>
            (objects (state p)))
         (S (S (next (state p)))))
      (Some (mkOutboxCallbackSetters (S (next (state p))) (next (state p))))
      (inboxSetter p).
Proof. intros Hreg Hp. unfold run_call. by rewrite setOutboxDispatcher_ok. Qed.

Lemma run_call_inbox_ok p path :
  registered "inbox" (state p) = false → parse path = inr {["handle"]} →
  run_call p (CallSetInboxListeners path)
  = mkProgram
      (mkState (this (with_route path "inbox" (state p))) (objects (state p))
         (S (next (state p))))
      (outboxSetters p) (Some (mkInboxListenerSetter (next (state p)))).
Proof. intros Hreg Hp. unfold run_call. by rewrite setInboxListeners_ok. Qed.

Lemma new_Federation_router parameters σ :
  new_Federation parameters = inr σ →
  router (this σ) = [Router.mkRoute "/.well-known/webfinger" "webfinger"].
Proof.
  unfold new_Federation, Router.add. destruct (parse _); by intros [= <-].
Qed.

(** What a program has achieved: the two dispatchers the instance holds,
    whether each setter object has been handed out, and whether each role
    is registered. *)
Definition held {A} (o : option A) : bool :=
  match o with
  | Some _ => true
  | None => false
  end.

Definition progress (p : Program)
    : option ActorDispatcher * option OutboxDispatcher * (bool * bool)
      * (bool * bool * bool) :=
  (actorDispatcher (this (state p)),
   outbox_field (state p) (λ o, Some (dispatcher o)),
   (held (outboxSetters p), held (inboxSetter p)),
   (registered "actor" (state p), registered "outbox" (state p),
    registered "inbox" (state p))).

Lemma progress_actor p path d a o h ro ri :
  parse path = inr {["handle"]} →
  progress p = (a, o, h, (false, ro, ri)) →
  progress (run_call p (CallSetActorDispatcher path d))
  = (Some d, o, h, (true, ro, ri)).
Proof.
  intros Hp [= <- <- <- Hreg <- <-]. rewrite run_call_actor_ok by done.
  unfold progress, registered, with_route, outbox_field.
  cbn [state this router set_actorDispatcher set_router actorDispatcher
       outboxCallbacks objects outboxSetters inboxSetter].
  by rewrite has_snoc_eq, !has_snoc_ne.
Qed.

Lemma progress_outbox p path d a o hi ra ri ho :
  parse path = inr {["handle"]} →
  progress p = (a, o, (ho, hi), (ra, false, ri)) →
  progress (run_call p (CallSetOutboxDispatcher path d))
  = (a, Some d, (true, hi), (ra, true, ri)).
Proof.
  intros Hp [= <- _ _ <- <- Hreg <-]. rewrite run_call_outbox_ok by done.
  unfold progress, registered, with_route, outbox_field.
  cbn [state this router set_outboxCallbacks set_router actorDispatcher
       outboxCallbacks objects outboxSetters inboxSetter held mbind
       option_bind].
  by rewrite lookup_insert_eq, has_snoc_eq, !has_snoc_ne.
Qed.

Lemma progress_inbox p path a o ho ra ro hi :
  parse path = inr {["handle"]} →
  progress p = (a, o, (ho, hi), (ra, ro, false)) →
  progress (run_call p (CallSetInboxListeners path))
  = (a, o, (ho, true), (ra, ro, true)).
Proof.
  intros Hp [= <- <- <- _ <- <- Hreg]. rewrite run_call_inbox_ok by done.
  unfold progress, registered, with_route, outbox_field.
  cbn [state this router set_router actorDispatcher
       outboxCallbacks objects outboxSetters inboxSetter held].
  by rewrite has_snoc_eq, !has_snoc_ne.
Qed.

Lemma progress_start parameters σ0 :
  new_Federation parameters = inr σ0 →
  progress (start σ0) = (None, None, (false, false), (false, false, false)).
Proof.
  intros Hnew.
  pose proof (new_Federation_unset _ _ Hnew) as (Ha & Ho & Hi).
  pose proof (new_Federation_router _ _ Hnew) as Hrouter.
  assert (Hfresh : ∀ role, role ≠ "webfinger" →
            registered role (state (start σ0)) = false).
  { intros role Hrole. unfold registered. simpl. rewrite Hrouter.
    apply has_false. rewrite list_fmap_singleton.
    by intros ->%list_elem_of_singleton. }
  unfold progress, outbox_field.
  rewrite (Ha (Hfresh "actor" ltac:(done))).
  rewrite (proj1 (Ho (Hfresh "outbox" ltac:(done)))).
  by rewrite !Hfresh.
Qed.

(** X12.  The three registrations can be made in any order: on an
    instance built by the constructor, whatever the order of a
    [setActorDispatcher], a [setOutboxDispatcher] and a
    [setInboxListeners] call with [{handle}] patterns, all three return,
    the two setter objects are handed out, and the instance holds the
    actor dispatcher and the outbox dispatcher given. *)
Theorem registrations_in_any_order (parameters : FederationParameters)
    (σ0 : State) (pa po pi : string) (da : ActorDispatcher)
    (do : OutboxDispatcher) (cs : list call) :
  new_Federation parameters = inr σ0 →
  parse pa = inr {["handle"]} →
  parse po = inr {["handle"]} →
  parse pi = inr {["handle"]} →
  cs ≡ₚ [CallSetActorDispatcher pa da; CallSetOutboxDispatcher po do;
         CallSetInboxListeners pi] →
  let p := run (start σ0) cs in
  actorDispatcher (this (state p)) = Some da
  ∧ outbox_field (state p) (λ o, Some (dispatcher o)) = Some do
  ∧ is_Some (outboxSetters p)
  ∧ is_Some (inboxSetter p)
  ∧ registered "actor" (state p) = true
  ∧ registered "outbox" (state p) = true
  ∧ registered "inbox" (state p) = true.
Proof.
  intros Hnew Ha Ho Hi Hcs p.
  assert (Hp : progress p = (Some da, Some do, (true, true), (true, true, true))).
  { subst p. pose proof (progress_start _ _ Hnew) as H0.
    apply permutation_triple in Hcs.
    repeat (apply elem_of_cons in Hcs as [->|Hcs]);
      [..|by apply elem_of_nil in Hcs];
      unfold run; cbn [foldl];
      repeat first
        [ exact H0
        | eapply progress_actor; [exact Ha|]
        | eapply progress_outbox; [exact Ho|]
        | eapply progress_inbox; [exact Hi|] ]. }
  injection Hp as -> -> Hos His -> -> ->.
  split_and!; try done.
  - destruct (outboxSetters p); [by eexists|done].
  - destruct (inboxSetter p); [by eexists|done].
Qed.

End federation.
Section dispatch.

Context {TContextData ActorDispatcher OutboxDispatcher OutboxCounter
         OutboxCursor InboxListener InboxErrorHandler DocumentLoader : Type}.
Context {ActivityClass : Type} `{Countable ActivityClass}.

#[local] Abbreviation State :=
  (@State ActorDispatcher OutboxDispatcher OutboxCounter OutboxCursor
     InboxListener InboxErrorHandler DocumentLoader ActivityClass _ _).
#[local] Abbreviation Parameters :=
  (@FederationHandlerParameters TContextData).

(** X13.  [handle] never calls the handler of a role that is not
    registered: with the actor role unregistered the response is the same
    whatever [handleActor] is, and likewise for [handleOutbox] and
    [handleInbox]. *)
Theorem unregistered_role_not_served
    (matches : string → string → option (gmap string string))
    handleWebFinger handleActor handleActor' handleOutbox handleOutbox'
    handleInbox handleInbox'
    (σ : State) (request : Web.Request) (parameters : Parameters) :
  (registered "actor" σ = false →
     handle matches handleWebFinger handleActor handleOutbox handleInbox
       σ request parameters
     = handle matches handleWebFinger handleActor' handleOutbox handleInbox
         σ request parameters)
  ∧ (registered "outbox" σ = false →
     handle matches handleWebFinger handleActor handleOutbox handleInbox
       σ request parameters
     = handle matches handleWebFinger handleActor handleOutbox' handleInbox
         σ request parameters)
  ∧ (registered "inbox" σ = false →
     handle matches handleWebFinger handleActor handleOutbox handleInbox
       σ request parameters
     = handle matches handleWebFinger handleActor handleOutbox handleInbox'
         σ request parameters).
Proof.
  unfold registered, handle.
  destruct (Router.route matches (router (this σ))
              (Web.pathname (Web.url request))) as [[name values]|] eqn:Hroute;
    [|done].
  apply route_name_in in Hroute.
  split_and!; intros Hreg%has_false; repeat case_decide; by subst.
Qed.

End dispatch.

End Middleware.

(** Closed decidable facts, settled by evaluation of their decision. *)
Ltac by_compute := apply (bool_decide_unpack _); vm_compute; exact I.

(** ** A template syntax to run the registry on

  The registry is parametric in the URI-template syntax of the router.
  For concrete runs the parameter is instantiated with level-1 templates:
  literal characters and [{name}] expressions, an expression matching a
  non-empty run of characters other than the slash. *)

Module Template.

Inductive token :=
  | Literal (c : Ascii.ascii)
  | Expression (name : string).

Fixpoint scan (template : string) (inside : option string)
    : string + list token :=
  match template, inside with
  | EmptyString, None => inr []
  | EmptyString, Some _ => inl "Unterminated expression."
  | String c rest, None =>
      if decide (c = "{"%char) then scan rest (Some "")
      else if decide (c = "}"%char) then inl "Unexpected closing brace."
      else match scan rest None with
           | inl message => inl message
           | inr tokens => inr (Literal c :: tokens)
           end
  | String c rest, Some name =>
      if decide (c = "}"%char) then
        match scan rest None with
        | inl message => inl message
        | inr tokens => inr (Expression name :: tokens)
        end
      else if decide (c = "{"%char) then inl "Nested expression."
      else scan rest (Some (name +:+ String c EmptyString))
  end.

Definition names (tokens : list token) : gset string :=
  list_to_set (omap (λ t, match t with
                          | Literal _ => None
                          | Expression name => Some name
                          end) tokens).

Definition parse (template : string) : string + gset string :=
  match scan template None with
  | inl message => inl message
  | inr tokens => inr (names tokens)
  end.

(** The longest prefix without a slash, and the rest. *)
Fixpoint segment (path : string) : string * string :=
  match path with
  | EmptyString => ("", "")
  | String c rest =>
      if decide (c = "/"%char) then ("", path)
      else let '(s, r) := segment rest in (String c s, r)
  end.

Fixpoint match_tokens (tokens : list token) (path : string)
    : option (gmap string string) :=
  match tokens with
  | [] => if decide (path = "") then Some ∅ else None
  | Literal c :: tokens' =>
      match path with
      | String c' rest =>
          if decide (c = c') then match_tokens tokens' rest else None
      | EmptyString => None
      end
  | Expression name :: tokens' =>
      let '(value, rest) := segment path in
      if decide (value = "") then None
      else (λ values, <[name:=value]> values) <$> match_tokens tokens' rest
  end.

Definition matches (template path : string) : option (gmap string string) :=
  match scan template None with
  | inl _ => None
  | inr tokens => match_tokens tokens path
  end.

Example parse_actor : parse "/users/{handle}" = inr {["handle"]}.
Proof. by vm_compute. Qed.

Example parse_plain : parse "/inbox" = inr ∅.
Proof. by vm_compute. Qed.

Example parse_broken : parse "/users/{handle" = inl "Unterminated expression.".
Proof. by vm_compute. Qed.

Example matches_outbox :
  matches "/users/{handle}/outbox" "/users/alice/outbox"
  = Some {["handle" := "alice"]}.
Proof. by vm_compute. Qed.

Example matches_other : matches "/users/{handle}/outbox" "/users/alice" = None.
Proof. by vm_compute. Qed.

End Template.

(** ** The blog example

  The registration sequence of [examples/blog/federation/mod.ts],
  restricted to the methods [middleware.ts] defines.  Callbacks and
  activity classes are represented by their names. *)

Module Blog.
Import Middleware.

Definition parameters : @FederationParameters string :=
  mkFederationParameters None (Some true).

Definition BlogState : Type :=
  @State string string string string string string string string _ _.

Definition initial : BlogState :=
  match new_Federation Template.parse "fetchDocumentLoader" parameters with
  | inr σ => σ
  | inl _ => mkState (mkFederation [] None None ∅ None "" false) ∅ 0
  end.

Definition registration
    : list (@call string string string string string string string) :=
  [ CallSetActorDispatcher "/users/{handle}" "actorDispatcher";
    CallSetOutboxDispatcher "/users/{handle}/outbox" "outboxDispatcher";
    CallSetCounter "outboxCounter";
    CallSetFirstCursor "outboxFirstCursor";
    CallSetInboxListeners "/users/{handle}/inbox";
    CallOn "Follow" "onFollow";
    CallOn "Create" "onCreate";
    CallOn "Undo" "onUndo";
    CallOnError "console.error" ].

Definition federation : Program :=
  run Template.parse (start initial) registration.

Definition chain : OutboxCallbackSetters := mkOutboxCallbackSetters 1 0.
Definition listenerSetter : InboxListenerSetter := mkInboxListenerSetter 2.

Example initial_new :
  new_Federation Template.parse "fetchDocumentLoader" parameters = inr initial.
Proof. by vm_compute. Qed.

Example federation_setters :
  outboxSetters federation = Some chain
  ∧ inboxSetter federation = Some listenerSetter.
Proof. by vm_compute. Qed.

Example federation_slots :
  actorDispatcher (this (state federation)) = Some "actorDispatcher"
  ∧ outbox_field (state federation) (λ o, Some (dispatcher o))
    = Some "outboxDispatcher"
  ∧ outbox_field (state federation) counter = Some "outboxCounter"
  ∧ outbox_field (state federation) firstCursor = Some "outboxFirstCursor"
  ∧ outbox_field (state federation) lastCursor = None
  ∧ inboxListeners (this (state federation))
    = {["Follow" := "onFollow"; "Create" := "onCreate"; "Undo" := "onUndo"]}
  ∧ inboxErrorHandler (this (state federation)) = Some "console.error".
Proof. split_and!; by_compute. Qed.

Example federation_routes :
  Router.name <$> router (this (state federation))
  = ["webfinger"; "actor"; "outbox"; "inbox"].
Proof. by vm_compute. Qed.

(** Handlers that answer with the name of the role they serve. *)
Definition served (role : string) : Web.Response :=
  Web.mkResponse 200 "OK" role.
Definition notFound (request : Web.Request) : Web.Response :=
  Web.mkResponse 404 "Not Found" (Web.href (Web.url request)).
Definition notAcceptable (request : Web.Request) : Web.Response :=
  Web.mkResponse 406 "Not Acceptable" (Web.href (Web.url request)).

Definition handlers : @FederationHandlerParameters unit :=
  mkFederationHandlerParameters () notFound notAcceptable.

Definition serve (σ : BlogState) (request : Web.Request) : Web.Response :=
  handle Template.matches
    (λ _ _, served "webfinger") (λ _ _, served "actor")
    (λ _ _, served "outbox") (λ _ _, served "inbox")
    σ request handlers.

Definition get (path : string) : Web.Request :=
  Web.mkRequest "GET" (Web.mkURL "https://example.com" path) ∅ "".

Example serve_actor :
  serve (state federation) (get "/users/alice") = served "actor".
Proof. by vm_compute. Qed.

Example serve_inbox :
  serve (state federation) (get "/users/alice/inbox") = served "inbox".
Proof. by vm_compute. Qed.

Example serve_unknown :
  serve (state federation) (get "/posts/1")
  = Web.mkResponse 404 "Not Found" "https://example.com/posts/1".
Proof. by vm_compute. Qed.

(** *** The claims on the blog instance *)

(** C5 fails as stated: on the chain of the blog, whose counter and first
    cursor are already set, a second [setCounter] and a second
    [setFirstCursor] return the chain instead of throwing, and the
    callbacks stored before are gone; likewise two [setLastCursor] calls
    in a row. *)
Lemma chain_setter_called_twice :
  outbox_field (state federation) counter = Some "outboxCounter"
  ∧ (setCounter chain "recount" (state federation)).2 = inr chain
  ∧ outbox_field (setCounter chain "recount" (state federation)).1 counter
    = Some "recount"
  ∧ outbox_field (state federation) firstCursor = Some "outboxFirstCursor"
  ∧ (setFirstCursor chain "restart" (state federation)).2 = inr chain
  ∧ outbox_field (setFirstCursor chain "restart" (state federation)).1
      firstCursor
    = Some "restart"
  ∧ (let σ := (setLastCursor chain "last" (state federation)).1 in
     outbox_field σ lastCursor = Some "last"
     ∧ (setLastCursor chain "latest" σ).2 = inr chain
     ∧ outbox_field (setLastCursor chain "latest" σ).1 lastCursor
       = Some "latest").
Proof. by vm_compute. Qed.

Lemma chain_setters_overwrite_witness :
  outboxSetters (run Template.parse (start initial) registration) = Some chain
  ∧ (setCounter chain "recount" (state federation)).2 = inr chain
  ∧ outbox_field (setCounter chain "recount" (state federation)).1 counter
    = Some "recount".
Proof.
  assert (Hheld : outboxSetters (run Template.parse (start initial) registration)
                  = Some chain) by (vm_compute; reflexivity).
  split; [exact Hheld|].
  destruct (chain_setters_overwrite Template.parse initial registration chain
              Hheld) as (o & _ & _ & Hcounter & _).
  destruct (Hcounter "recount") as [Heq Hread].
  split; [|exact Hread]. unfold federation. rewrite Heq. reflexivity.
Defined.

Lemma on_registers_once_witness :
  inboxListeners (this (state federation)) !! "Follow" = Some "onFollow"
  ∧ on listenerSetter "Follow" "onFollowAgain" (state federation)
    = (state federation,
       inl (TypeError "Listener already set for this type."))
  ∧ inboxListeners (this (state federation)) !! "Accept" = None
  ∧ (on listenerSetter "Accept" "onAccept" (state federation)).2
    = inr listenerSetter
  ∧ inboxListeners
      (this (on listenerSetter "Accept" "onAccept" (state federation)).1)
    !! "Accept" = Some "onAccept".
Proof.
  assert (Hfollow : inboxListeners (this (state federation)) !! "Follow"
                    = Some "onFollow") by (vm_compute; reflexivity).
  assert (Haccept : inboxListeners (this (state federation)) !! "Accept"
                    = None) by (vm_compute; reflexivity).
  split; [exact Hfollow|]. split.
  - exact (proj1 (proj1 (on_registers_once (state federation) listenerSetter
                           "Follow" "onFollowAgain") _ Hfollow)).
  - split; [exact Haccept|].
    destruct (proj2 (on_registers_once (state federation) listenerSetter
                       "Accept" "onAccept") Haccept) as (Heq & Hnew & _).
    split; [|exact Hnew]. rewrite Heq. reflexivity.
Defined.

(** The instance right after each first registration, and an instance
    whose router knows a role [handle] does not serve. *)
Definition afterActor : Program :=
  run_call Template.parse (start initial)
    (CallSetActorDispatcher "/users/{handle}" "actorDispatcher").
Definition afterOutbox : Program :=
  run_call Template.parse (start initial)
    (CallSetOutboxDispatcher "/users/{handle}/outbox" "outboxDispatcher").
Definition afterInbox : Program :=
  run_call Template.parse (start initial)
    (CallSetInboxListeners "/users/{handle}/inbox").

Definition withFollowers : BlogState :=
  mkState
    (set_router
       (router (this initial)
        ++ [Router.mkRoute "/users/{handle}/followers" "followers"])
       (this initial))
    ∅ 0.

Lemma second_registration_fails_witness :
  (let q := state (run Template.parse afterActor registration) in
   registered "actor" (state afterActor) = true
   ∧ setActorDispatcher Template.parse "/actors/{handle}" "other" q
     = (q, inl (RouterError "Actor dispatcher already set."))
   ∧ actorDispatcher (this q) = actorDispatcher (this (state afterActor)))
  ∧ (let q := state (run Template.parse afterOutbox registration) in
     registered "outbox" (state afterOutbox) = true
     ∧ setOutboxDispatcher Template.parse "/actors/{handle}/outbox" "other" q
       = (q, inl (RouterError "Outbox dispatcher already set.")))
  ∧ (let q := state (run Template.parse afterInbox registration) in
     registered "inbox" (state afterInbox) = true
     ∧ setInboxListeners Template.parse "/actors/{handle}/inbox" q
       = (q, inl (RouterError "Inbox already set."))).
Proof.
  assert (Hactor : registered "actor" (state afterActor) = true)
    by (vm_compute; reflexivity).
  assert (Houtbox : registered "outbox" (state afterOutbox) = true)
    by (vm_compute; reflexivity).
  assert (Hinbox : registered "inbox" (state afterInbox) = true)
    by (vm_compute; reflexivity).
  destruct (second_registration_fails Template.parse (start initial)
              registration) as (Ha & Ho & Hi).
  split; [|split].
  - split; [exact Hactor|].
    exact (proj2 (Ha "/users/{handle}" "actorDispatcher" "/actors/{handle}"
                    "other") Hactor).
  - split; [exact Houtbox|].
    exact (proj1 (proj2 (Ho "/users/{handle}/outbox" "outboxDispatcher"
                           "/actors/{handle}/outbox" "other") Houtbox)).
  - split; [exact Hinbox|].
    exact (proj2 (Hi "/users/{handle}/inbox" "/actors/{handle}/inbox") Hinbox).
Defined.

Lemma registration_requires_handle_witness :
  Template.parse "/users/{id}" ≠ inr {["handle"]}
  ∧ (∃ message,
       (setActorDispatcher Template.parse "/users/{id}" "actorDispatcher"
          initial).2 = inl (RouterError message)
       ∧ actorDispatcher
           (this (setActorDispatcher Template.parse "/users/{id}"
                    "actorDispatcher" initial).1)
         = actorDispatcher (this initial))
  ∧ Template.parse "/users/{handle}" = inr {["handle"]}
  ∧ registered "actor" initial = false
  ∧ (setActorDispatcher Template.parse "/users/{handle}" "actorDispatcher"
       initial).2 = inr ().
Proof.
  assert (Hid : Template.parse "/users/{id}" ≠ inr {["handle"]}).
  { apply (proj1 (bool_decide_eq_false _)). vm_compute. reflexivity. }
  assert (Hhandle : Template.parse "/users/{handle}" = inr {["handle"]})
    by (vm_compute; reflexivity).
  assert (Hreg : registered "actor" initial = false)
    by (vm_compute; reflexivity).
  split; [exact Hid|]. split.
  - exact (proj1 (proj1 (registration_requires_handle Template.parse initial
                           "/users/{id}") Hid) "actorDispatcher").
  - split; [exact Hhandle|]. split; [exact Hreg|].
    exact (proj1 (proj2 (proj2 (registration_requires_handle Template.parse
                                  initial "/users/{handle}")) Hhandle)
             "actorDispatcher" Hreg).
Defined.

Lemma handle_not_found_witness :
  Router.route Template.matches (router (this (state federation))) "/posts/1"
  = None
  ∧ serve (state federation) (get "/posts/1") = notFound (get "/posts/1")
  ∧ Router.route Template.matches (router (this withFollowers))
      "/users/alice/followers"
    = Some ("followers", {["handle" := "alice"]})
  ∧ ("followers" ∉ ["webfinger"; "actor"; "outbox"; "inbox"])
  ∧ serve withFollowers (get "/users/alice/followers")
    = notFound (get "/users/alice/followers").
Proof.
  assert (Hnone : Router.route Template.matches
                    (router (this (state federation)))
                    (Web.pathname (Web.url (get "/posts/1"))) = None)
    by (vm_compute; reflexivity).
  assert (Hsome : Router.route Template.matches (router (this withFollowers))
                    (Web.pathname (Web.url (get "/users/alice/followers")))
                  = Some ("followers", {["handle" := "alice"]}))
    by (vm_compute; reflexivity).
  assert (Hother : "followers" ∉ ["webfinger"; "actor"; "outbox"; "inbox"]).
  { apply (proj1 (bool_decide_eq_false _)). vm_compute. reflexivity. }
  split; [exact Hnone|]. split.
  - exact (proj1 (handle_not_found Template.matches _ _ _ _
                    (state federation) (get "/posts/1") handlers) Hnone).
  - split; [exact Hsome|]. split; [exact Hother|].
    exact (proj2 (handle_not_found Template.matches _ _ _ _ withFollowers
                    (get "/users/alice/followers") handlers)
             _ _ Hsome Hother).
Defined.

Lemma failed_registration_blocks_role_witness :
  let q := state (run Template.parse
                    (run_call Template.parse (start initial)
                       (CallSetActorDispatcher "/users/{id}" "actorDispatcher"))
                    registration) in
  new_Federation Template.parse "fetchDocumentLoader" parameters = inr initial
  ∧ Template.parse "/users/{id}" = inr {["id"]}
  ∧ ({["id"]} : gset string) ≠ {["handle"]}
  ∧ registered "actor" initial = false
  ∧ (setActorDispatcher Template.parse "/users/{id}" "actorDispatcher"
       initial).2
    = inl (RouterError
             "Path for actor dispatcher must have one variable: {handle}")
  ∧ setActorDispatcher Template.parse "/users/{handle}" "actorDispatcher" q
    = (q, inl (RouterError "Actor dispatcher already set."))
  ∧ actorDispatcher (this q) = None.
Proof.
  intros q.
  assert (Hnew : new_Federation Template.parse "fetchDocumentLoader" parameters
                 = inr initial) by (vm_compute; reflexivity).
  assert (Hparse : Template.parse "/users/{id}" = inr {["id"]})
    by (vm_compute; reflexivity).
  assert (Hne : ({["id"]} : gset string) ≠ {["handle"]}).
  { apply (proj1 (bool_decide_eq_false _)). vm_compute. reflexivity. }
  assert (Hreg : registered "actor" initial = false)
    by (vm_compute; reflexivity).
  split; [exact Hnew|]. split; [exact Hparse|]. split; [exact Hne|].
  split; [exact Hreg|].
  destruct (proj1 (failed_registration_blocks_role Template.parse
                     "fetchDocumentLoader" parameters initial [] registration
                     "/users/{id}" {["id"]} Hnew Hparse Hne)
              "actorDispatcher" "/users/{handle}" "actorDispatcher" Hreg)
    as (Hthrown & _ & Hsecond & Hempty).
  split; [exact Hthrown|]. split; [exact Hsecond|exact Hempty].
Defined.

(** *** The further properties on the blog instance *)

Definition follows : list (string * string) :=
  [("Follow", "onFollow"); ("Create", "onCreate"); ("Undo", "onUndo")].

Definition aliceValues : gmap string string := {["handle" := "alice"]}.

Lemma registration_frame_witness :
  "outbox" ≠ "actor"
  ∧ registered "outbox"
      (setActorDispatcher Template.parse "/users/{handle}" "actorDispatcher"
         initial).1
    = registered "outbox" initial.
Proof.
  assert (Hne : "outbox" ≠ "actor") by discriminate.
  split; [exact Hne|].
  exact (proj1 (proj1 (registration_frame Template.parse initial
                         "/users/{handle}") "actorDispatcher") "outbox" Hne).
Defined.

Lemma listeners_persist_witness :
  inboxListeners (this (state federation)) !! "Follow" = Some "onFollow"
  ∧ inboxListeners
      (this (state (run Template.parse federation
                      [CallOn "Follow" "onFollowAgain";
                       CallOn "Accept" "onAccept"; CallOnError "log"])))
    !! "Follow" = Some "onFollow".
Proof.
  assert (Hin : inboxListeners (this (state federation)) !! "Follow"
                = Some "onFollow") by (vm_compute; reflexivity).
  split; [exact Hin|].
  exact (listeners_persist Template.parse federation _ "Follow" "onFollow" Hin).
Defined.

Lemma on_distinct_types_witness :
  inboxSetter afterInbox = Some (mkInboxListenerSetter 0)
  ∧ NoDup follows.*1
  ∧ inboxListeners (this (state afterInbox)) = ∅
  ∧ inboxListeners
      (this (state (run Template.parse afterInbox
                      ((λ tl, CallOn tl.1 tl.2) <$> follows))))
    = list_to_map follows ∪ inboxListeners (this (state afterInbox)).
Proof.
  assert (Hsetter : inboxSetter afterInbox = Some (mkInboxListenerSetter 0))
    by (vm_compute; reflexivity).
  assert (Hnd : NoDup follows.*1) by by_compute.
  assert (Hempty : inboxListeners (this (state afterInbox)) = ∅)
    by (vm_compute; reflexivity).
  split; [exact Hsetter|]. split; [exact Hnd|]. split; [exact Hempty|].
  apply (on_distinct_types Template.parse afterInbox _ follows Hsetter Hnd).
  intros type _. rewrite Hempty. apply lookup_empty.
Defined.

Lemma one_route_per_role_witness :
  new_Federation Template.parse "fetchDocumentLoader" parameters = inr initial
  ∧ routes_well_formed (router (this (state federation))).
Proof.
  assert (Hnew : new_Federation Template.parse "fetchDocumentLoader" parameters
                 = inr initial) by (vm_compute; reflexivity).
  split; [exact Hnew|].
  exact (one_route_per_role Template.parse "fetchDocumentLoader" parameters
           initial registration Hnew).
Defined.

Lemma configuration_fixed_witness :
  new_Federation Template.parse "fetchDocumentLoader" parameters = inr initial
  ∧ documentLoader (this (state federation)) = "fetchDocumentLoader"
  ∧ treatHttps (this (state federation)) = true.
Proof.
  assert (Hnew : new_Federation Template.parse "fetchDocumentLoader" parameters
                 = inr initial) by (vm_compute; reflexivity).
  split; [exact Hnew|].
  exact (configuration_fixed Template.parse "fetchDocumentLoader" parameters
           initial registration Hnew).
Defined.

Lemma actor_requests_reach_dispatcher_witness :
  (setActorDispatcher Template.parse "/users/{handle}" "actorDispatcher"
     initial).2 = inr ()
  ∧ Router.route Template.matches (router (this initial)) "/users/alice" = None
  ∧ Template.matches "/users/{handle}" "/users/alice" = Some aliceValues
  ∧ serve (state afterActor) (get "/users/alice") = served "actor".
Proof.
  assert (Hok : (setActorDispatcher Template.parse "/users/{handle}"
                   "actorDispatcher" initial).2 = inr ())
    by (vm_compute; reflexivity).
  assert (Hnone : Router.route Template.matches (router (this initial))
                    (Web.pathname (Web.url (get "/users/alice"))) = None)
    by (vm_compute; reflexivity).
  assert (Hmatch : Template.matches "/users/{handle}"
                     (Web.pathname (Web.url (get "/users/alice")))
                   = Some aliceValues) by (vm_compute; reflexivity).
  split; [exact Hok|]. split; [exact Hnone|]. split; [exact Hmatch|].
  exact (proj1 (actor_requests_reach_dispatcher Template.parse Template.matches
                  (λ _ _, served "webfinger") (λ _ _, served "actor")
                  (λ _ _, served "outbox") (λ _ _, served "inbox")
                  initial "/users/{handle}" "actorDispatcher"
                  (get "/users/alice") handlers Hok)
           aliceValues Hnone Hmatch).
Defined.

Lemma outbox_requests_reach_callbacks_witness :
  (setOutboxDispatcher Template.parse "/users/{handle}/outbox"
     "outboxDispatcher" initial).2 = inr (mkOutboxCallbackSetters 1 0)
  ∧ Router.route Template.matches (router (this initial)) "/users/alice/outbox"
    = None
  ∧ Template.matches "/users/{handle}/outbox" "/users/alice/outbox"
    = Some aliceValues
  ∧ serve (state afterOutbox) (get "/users/alice/outbox") = served "outbox".
Proof.
  assert (Hok : (setOutboxDispatcher Template.parse "/users/{handle}/outbox"
                   "outboxDispatcher" initial).2
                = inr (mkOutboxCallbackSetters 1 0))
    by (vm_compute; reflexivity).
  assert (Hnone : Router.route Template.matches (router (this initial))
                    (Web.pathname (Web.url (get "/users/alice/outbox")))
                  = None) by (vm_compute; reflexivity).
  assert (Hmatch : Template.matches "/users/{handle}/outbox"
                     (Web.pathname (Web.url (get "/users/alice/outbox")))
                   = Some aliceValues) by (vm_compute; reflexivity).
  split; [exact Hok|]. split; [exact Hnone|]. split; [exact Hmatch|].
  exact (proj1 (outbox_requests_reach_callbacks Template.parse Template.matches
                  (λ _ _, served "webfinger") (λ _ _, served "actor")
                  (λ _ _, served "outbox") (λ _ _, served "inbox")
                  initial "/users/{handle}/outbox" "outboxDispatcher"
                  (mkOutboxCallbackSetters 1 0) "outboxCounter"
                  "outboxFirstCursor" "outboxLastCursor"
                  (get "/users/alice/outbox") handlers aliceValues
                  Hok Hnone Hmatch)).
Defined.

Lemma inbox_requests_reach_listeners_witness :
  (setInboxListeners Template.parse "/users/{handle}/inbox" initial).2
  = inr (mkInboxListenerSetter 0)
  ∧ Router.route Template.matches (router (this initial)) "/users/alice/inbox"
    = None
  ∧ Template.matches "/users/{handle}/inbox" "/users/alice/inbox"
    = Some aliceValues
  ∧ inboxListeners (this initial) !! "Follow" = None
  ∧ serve (state afterInbox) (get "/users/alice/inbox") = served "inbox".
Proof.
  assert (Hok : (setInboxListeners Template.parse "/users/{handle}/inbox"
                   initial).2 = inr (mkInboxListenerSetter 0))
    by (vm_compute; reflexivity).
  assert (Hnone : Router.route Template.matches (router (this initial))
                    (Web.pathname (Web.url (get "/users/alice/inbox")))
                  = None) by (vm_compute; reflexivity).
  assert (Hmatch : Template.matches "/users/{handle}/inbox"
                     (Web.pathname (Web.url (get "/users/alice/inbox")))
                   = Some aliceValues) by (vm_compute; reflexivity).
  assert (Hfresh : inboxListeners (this initial) !! "Follow" = None)
    by (vm_compute; reflexivity).
  split; [exact Hok|]. split; [exact Hnone|]. split; [exact Hmatch|].
  split; [exact Hfresh|].
  exact (proj1 (inbox_requests_reach_listeners Template.parse Template.matches
                  (λ _ _, served "webfinger") (λ _ _, served "actor")
                  (λ _ _, served "outbox") (λ _ _, served "inbox")
                  initial "/users/{handle}/inbox" (mkInboxListenerSetter 0)
                  "Follow" "onFollow" "log"
                  (get "/users/alice/inbox") handlers aliceValues
                  Hok Hnone Hmatch Hfresh)).
Defined.

Lemma rejected_pattern_is_served_witness :
  Template.parse "/users/{id}" = inr {["id"]}
  ∧ ({["id"]} : gset string) ≠ {["handle"]}
  ∧ Router.route Template.matches (router (this initial)) "/users/alice" = None
  ∧ Template.matches "/users/{id}" "/users/alice" = Some {["id" := "alice"]}
  ∧ registered "actor" initial = false
  ∧ serve (setActorDispatcher Template.parse "/users/{id}" "actorDispatcher"
             initial).1 (get "/users/alice")
    = served "actor".
Proof.
  assert (Hparse : Template.parse "/users/{id}" = inr {["id"]})
    by (vm_compute; reflexivity).
  assert (Hne : ({["id"]} : gset string) ≠ {["handle"]}).
  { apply (proj1 (bool_decide_eq_false _)). vm_compute. reflexivity. }
  assert (Hnone : Router.route Template.matches (router (this initial))
                    (Web.pathname (Web.url (get "/users/alice"))) = None)
    by (vm_compute; reflexivity).
  assert (Hmatch : Template.matches "/users/{id}"
                     (Web.pathname (Web.url (get "/users/alice")))
                   = Some {["id" := "alice"]}) by (vm_compute; reflexivity).
  assert (Hreg : registered "actor" initial = false)
    by (vm_compute; reflexivity).
  split; [exact Hparse|]. split; [exact Hne|]. split; [exact Hnone|].
  split; [exact Hmatch|]. split; [exact Hreg|].
  exact (proj1 (rejected_pattern_is_served Template.parse Template.matches
                  (λ _ _, served "webfinger") (λ _ _, served "actor")
                  (λ _ _, served "outbox") (λ _ _, served "inbox")
                  initial "/users/{id}" {["id"]} (get "/users/alice") handlers
                  {["id" := "alice"]} Hparse Hne Hnone Hmatch)
           "actorDispatcher" Hreg).
Defined.

Definition inboxFirst : list (@call string string string string string string string) :=
  [ CallSetInboxListeners "/users/{handle}/inbox";
    CallSetActorDispatcher "/users/{handle}" "actorDispatcher";
    CallSetOutboxDispatcher "/users/{handle}/outbox" "outboxDispatcher" ].

Lemma registrations_in_any_order_witness :
  new_Federation Template.parse "fetchDocumentLoader" parameters = inr initial
  ∧ Template.parse "/users/{handle}" = inr {["handle"]}
  ∧ Template.parse "/users/{handle}/outbox" = inr {["handle"]}
  ∧ Template.parse "/users/{handle}/inbox" = inr {["handle"]}
  ∧ actorDispatcher
      (this (state (run Template.parse (start initial) inboxFirst)))
    = Some "actorDispatcher".
Proof.
  assert (Hnew : new_Federation Template.parse "fetchDocumentLoader" parameters
                 = inr initial) by (vm_compute; reflexivity).
  assert (Ha : Template.parse "/users/{handle}" = inr {["handle"]})
    by (vm_compute; reflexivity).
  assert (Ho : Template.parse "/users/{handle}/outbox" = inr {["handle"]})
    by (vm_compute; reflexivity).
  assert (Hi : Template.parse "/users/{handle}/inbox" = inr {["handle"]})
    by (vm_compute; reflexivity).
  assert (Hperm : inboxFirst
                  ≡ₚ [CallSetActorDispatcher "/users/{handle}" "actorDispatcher";
                      CallSetOutboxDispatcher "/users/{handle}/outbox"
                        "outboxDispatcher";
                      CallSetInboxListeners "/users/{handle}/inbox"]).
  { unfold inboxFirst. etransitivity; [apply perm_swap|].
    apply perm_skip, perm_swap. }
  split; [exact Hnew|]. split; [exact Ha|]. split; [exact Ho|].
  split; [exact Hi|].
  exact (proj1 (registrations_in_any_order Template.parse "fetchDocumentLoader"
                  parameters initial _ _ _ _ _ inboxFirst Hnew Ha Ho Hi Hperm)).
Defined.

Lemma unregistered_role_not_served_witness :
  registered "actor" initial = false
  ∧ serve initial (get "/users/alice")
    = handle Template.matches (λ _ _, served "webfinger")
        (λ _ _, served "somebody else") (λ _ _, served "outbox")
        (λ _ _, served "inbox") initial (get "/users/alice") handlers.
Proof.
  assert (Hreg : registered "actor" initial = false)
    by (vm_compute; reflexivity).
  split; [exact Hreg|].
  exact (proj1 (unregistered_role_not_served Template.matches
                  (λ _ _, served "webfinger") (λ _ _, served "actor")
                  (λ _ _, served "somebody else")
                  (λ _ _, served "outbox") (λ _ _, served "outbox")
                  (λ _ _, served "inbox") (λ _ _, served "inbox")
                  initial (get "/users/alice") handlers) Hreg).
Defined.

End Blog.

(** ** The outbox send pipeline: [extractInboxes] and [sendActivity] *)

Module Send.

(** An actor as [extractInboxes] reads it: its [id], its [inbox] and the
    [sharedInbox] of its [endpoints], if it declares one. *)
Record Actor := mkActor {
  id : Web.URL;
  inbox : Web.URL;
  sharedInbox : option Web.URL;
}.

#[global] Instance Actor_eq_dec : EqDecision Actor.
Proof. solve_decision. Defined.

Record ExtractInboxesParameters := mkExtractInboxesParameters {
  recipients : list Actor;
  preferSharedInbox : bool;
  excludeBaseUris : list Web.URL;
}.

(** Modelled from the spec: the inbox chosen for a recipient by the
    absent [extractInboxes], the shared inbox if [preferSharedInbox] is
    set and the recipient declares one, the personal inbox otherwise. *)
Definition target (preferSharedInbox : bool) (recipient : Actor) : Web.URL :=
  if preferSharedInbox then default (inbox recipient) (sharedInbox recipient)
  else inbox recipient.

(** Modelled from the spec: the exclusion test of the absent
    [extractInboxes], whether the origin of [u] is the origin of one of
    [excludeBaseUris]. *)
Definition excluded (excludeBaseUris : list Web.URL) (u : Web.URL) : bool :=
  bool_decide (Exists (λ e, Web.origin e = Web.origin u) excludeBaseUris).

(** Modelled from the spec: one iteration of the absent [extractInboxes]
    over the recipients; the mapping gains the recipient under the chosen
    inbox, unless that inbox is excluded. *)
Definition add_recipient (parameters : ExtractInboxesParameters)
    (inboxes : gmap string (gset string)) (recipient : Actor)
    : gmap string (gset string) :=
  let u := target (preferSharedInbox parameters) recipient in
  if excluded (excludeBaseUris parameters) u then inboxes
  else <[Web.href u:={[Web.href (id recipient)]}
                     ∪ default ∅ (inboxes !! Web.href u)]> inboxes.

(** Modelled from the spec: [federation/send.ts] is not part of the
    sources, only its test is.  The specification has [extractInboxes]
    choose for each recipient the shared inbox, if [preferSharedInbox] is
    set and the recipient declares one, and the personal inbox otherwise;
    skip the recipient if the origin of the chosen inbox is the origin of
    a URI of [excludeBaseUris]; and group the recipients by the URL of the
    chosen inbox into a mapping from inbox to the set of their
    identifiers. *)
Definition extractInboxes (parameters : ExtractInboxesParameters)
    : gmap string (gset string) :=
  foldl (add_recipient parameters) ∅ (recipients parameters).

(** *** The recipients of [send.test.ts] *)

Definition url (origin pathname : string) : Web.URL := Web.mkURL origin pathname.

Definition alice : Actor :=
  mkActor (url "https://example.com" "/alice")
    (url "https://example.com" "/alice/inbox")
    (Some (url "https://example.com" "/inbox")).
Definition app : Actor :=
  mkActor (url "https://example.com" "/app")
    (url "https://example.com" "/app/inbox")
    (Some (url "https://example.com" "/inbox")).
Definition group : Actor :=
  mkActor (url "https://example.org" "/group")
    (url "https://example.org" "/group/inbox") None.
Definition service : Actor :=
  mkActor (url "https://example.net" "/service")
    (url "https://example.net" "/service/inbox")
    (Some (url "https://example.net" "/inbox")).

Definition testRecipients : list Actor := [alice; app; group; service].

Example extractInboxes_default :
  extractInboxes (mkExtractInboxesParameters testRecipients false [])
  = {[ "https://example.com/alice/inbox" := {["https://example.com/alice"]};
       "https://example.com/app/inbox" := {["https://example.com/app"]};
       "https://example.org/group/inbox" := {["https://example.org/group"]};
       "https://example.net/service/inbox" := {["https://example.net/service"]} ]}.
Proof. by_compute. Qed.

Example extractInboxes_shared :
  extractInboxes (mkExtractInboxesParameters testRecipients true [])
  = {[ "https://example.com/inbox"
       := {["https://example.com/alice"; "https://example.com/app"]};
       "https://example.org/group/inbox" := {["https://example.org/group"]};
       "https://example.net/inbox" := {["https://example.net/service"]} ]}.
Proof. by_compute. Qed.

Example extractInboxes_exclude_other :
  extractInboxes
    (mkExtractInboxesParameters testRecipients false [url "https://foo.bar" "/"])
  = extractInboxes (mkExtractInboxesParameters testRecipients false []).
Proof. by_compute. Qed.

Example extractInboxes_exclude :
  extractInboxes
    (mkExtractInboxesParameters testRecipients false
       [url "https://example.com" "/"])
  = {[ "https://example.org/group/inbox" := {["https://example.org/group"]};
       "https://example.net/service/inbox" := {["https://example.net/service"]} ]}.
Proof. by_compute. Qed.

Example extractInboxes_shared_exclude :
  extractInboxes
    (mkExtractInboxesParameters testRecipients true
       [url "https://example.com" "/"])
  = {[ "https://example.org/group/inbox" := {["https://example.org/group"]};
       "https://example.net/inbox" := {["https://example.net/service"]} ]}.
Proof. by_compute. Qed.

(** *** What the mapping holds *)

(** A recipient is kept when the inbox chosen for it is not excluded; its
    key is the URL of that inbox. *)
Definition kept (parameters : ExtractInboxesParameters) (r : Actor) : Prop :=
  excluded (excludeBaseUris parameters)
    (target (preferSharedInbox parameters) r) = false.

#[global] Instance kept_dec parameters r : Decision (kept parameters r).
Proof. unfold kept. apply _. Defined.

Definition key (parameters : ExtractInboxesParameters) (r : Actor) : string :=
  Web.href (target (preferSharedInbox parameters) r).

(** The identifiers of the kept recipients of [rs] whose key is [k]. *)
Definition members (parameters : ExtractInboxesParameters) (k : string)
    (rs : list Actor) : list string :=
  (λ r, Web.href (id r))
    <$> filter (λ r, kept parameters r ∧ key parameters r = k) rs.

Lemma members_cons parameters k r rs :
  members parameters k (r :: rs)
  = if decide (kept parameters r ∧ key parameters r = k)
    then Web.href (id r) :: members parameters k rs
    else members parameters k rs.
Proof. unfold members. rewrite filter_cons. by case_decide. Qed.

Lemma foldl_add_recipient_lookup parameters rs acc k :
  foldl (add_recipient parameters) acc rs !! k
  = match members parameters k rs with
    | [] => acc !! k
    | ms => Some (list_to_set ms ∪ default ∅ (acc !! k))
    end.
Proof.
  revert acc. induction rs as [|r rs IH]; intros acc; [done|].
  simpl. rewrite IH, members_cons. unfold add_recipient.
  fold (key parameters r).
  destruct (decide (kept parameters r)) as [Hkept|Hkept].
  - pose proof Hkept as Hex. unfold kept in Hex. rewrite Hex.
    destruct (decide (key parameters r = k)) as [Hk|Hk].
    + rewrite decide_True by done. subst k. rewrite lookup_insert_eq. simpl.
      destruct (members parameters (key parameters r) rs) as [|m ms];
        f_equal; set_solver.
    + rewrite decide_False by (intros [_ ?]; done).
      by rewrite lookup_insert_ne.
  - rewrite decide_False by (intros [? _]; done).
    unfold kept in Hkept. apply not_false_is_true in Hkept. by rewrite Hkept.
Qed.

Lemma extractInboxes_lookup parameters k :
  extractInboxes parameters !! k
  = match members parameters k (recipients parameters) with
    | [] => None
    | ms => Some (list_to_set ms)
    end.
Proof.
  unfold extractInboxes. rewrite foldl_add_recipient_lookup, lookup_empty.
  destruct (members _ _ _); [done|]. f_equal. set_solver.
Qed.

Lemma elem_of_members parameters k rs x :
  x ∈ members parameters k rs
  ↔ ∃ r, r ∈ rs ∧ kept parameters r ∧ key parameters r = k
         ∧ Web.href (id r) = x.
Proof.
  unfold members. rewrite list_elem_of_fmap. split.
  - intros (r & -> & Hr). apply list_elem_of_filter in Hr as [[? ?] ?].
    by exists r.
  - intros (r & Hin & Hkept & Hkey & <-). exists r. split; [done|].
    by apply list_elem_of_filter.
Qed.

(** An entry of the mapping holds exactly the identifiers of the kept
    recipients keyed by it, and there is an entry for exactly the keys of
    kept recipients. *)
Lemma extractInboxes_entry parameters k s :
  extractInboxes parameters !! k = Some s →
  ∀ x, x ∈ s ↔ ∃ r, r ∈ recipients parameters ∧ kept parameters r
                     ∧ key parameters r = k ∧ Web.href (id r) = x.
Proof.
  rewrite extractInboxes_lookup. intros Hs x.
  rewrite <- elem_of_members.
  destruct (members _ _ _) as [|m ms]; [done|]. simplify_eq.
  by rewrite elem_of_list_to_set.
Qed.

Lemma extractInboxes_is_Some parameters k :
  is_Some (extractInboxes parameters !! k)
  ↔ ∃ r, r ∈ recipients parameters ∧ kept parameters r
         ∧ key parameters r = k.
Proof.
  rewrite extractInboxes_lookup. split.
  - intros [s Hs].
    destruct (members _ _ _) as [|m ms] eqn:Hm; [done|].
    assert (m ∈ members parameters k (recipients parameters)) as Hin
      by (rewrite Hm; constructor).
    apply elem_of_members in Hin as (r & ? & ? & ? & _). by exists r.
  - intros (r & Hin & Hkept & Hkey).
    assert (Web.href (id r) ∈ members parameters k (recipients parameters))
      as Hm by (apply elem_of_members; by exists r).
    destruct (members _ _ _); [by apply elem_of_nil in Hm | by eexists].
Qed.

Lemma excluded_nil u : excluded [] u = false.
Proof. unfold excluded. apply bool_decide_eq_false_2. by intros ?%Exists_nil. Qed.

(** The mapping does not depend on the recipients that are not kept. *)
Lemma members_kept parameters k rs :
  members
    (mkExtractInboxesParameters (filter (kept parameters) (recipients parameters))
       (preferSharedInbox parameters) [])
    k (filter (kept parameters) rs)
  = members parameters k rs.
Proof.
  induction rs as [|r rs IH]; [done|].
  rewrite filter_cons, (members_cons parameters). case_decide as Hkept.
  - rewrite members_cons, IH.
    apply decide_ext. unfold kept at 1, key at 1; simpl.
    rewrite excluded_nil. fold (key parameters r). tauto.
  - rewrite IH. by rewrite decide_False by (intros [? _]; done).
Qed.

Lemma members_nil parameters k rs :
  k ∉ key parameters <$> rs → members parameters k rs = [].
Proof.
  intros Hk. destruct (members parameters k rs) as [|m ms] eqn:Hm; [done|].
  assert (m ∈ members parameters k rs) as Hin by (rewrite Hm; constructor).
  apply elem_of_members in Hin as (r & Hr & _ & <- & _).
  destruct Hk. by apply list_elem_of_fmap_2.
Qed.

(** With pairwise distinct keys every kept recipient is alone in its
    entry. *)
Lemma members_NoDup parameters r rs :
  NoDup (key parameters <$> rs) → r ∈ rs → kept parameters r →
  members parameters (key parameters r) rs = [Web.href (id r)].
Proof.
  induction rs as [|a rs IH]; intros Hnd Hin Hkept.
  { by apply elem_of_nil in Hin. }
  rewrite fmap_cons in Hnd. apply NoDup_cons in Hnd as [Ha Hnd].
  rewrite members_cons. apply elem_of_cons in Hin as [->|Hin].
  - rewrite decide_True by done. by rewrite members_nil.
  - rewrite decide_False; [by apply IH|].
    intros [_ Hkey]. apply Ha. rewrite Hkey. by apply list_elem_of_fmap_2.
Qed.

(** C1.  The mapping [extractInboxes] returns has an entry for exactly the
    inboxes chosen for the recipients that are not excluded, the sets of
    its entries together hold exactly the identifiers of those
    recipients, and every identifier in an entry belongs to such a
    recipient keyed by that entry; the excluded recipients leave no trace,
    the mapping being that of the list without them, and the identifier
    of an excluded recipient is in no entry unless a recipient that is
    not excluded bears it too.  When the chosen
    inboxes are pairwise distinct, as the personal inboxes are when they
    are distinct and [preferSharedInbox] is unset, there are as many
    entries as recipients not excluded, each holding the one identifier
    of its recipient. *)
Theorem extractInboxes_partition (parameters : ExtractInboxesParameters) :
  let inboxes := extractInboxes parameters in
  let rs := filter (kept parameters) (recipients parameters) in
  dom inboxes = list_to_set (key parameters <$> rs)
  ∧ ⋃ (snd <$> map_to_list inboxes)
    = list_to_set ((λ r, Web.href (id r)) <$> rs)
  ∧ (∀ k s x, inboxes !! k = Some s →
       x ∈ s ↔ ∃ r, r ∈ rs ∧ key parameters r = k ∧ Web.href (id r) = x)
  ∧ inboxes
    = extractInboxes
        (mkExtractInboxesParameters rs (preferSharedInbox parameters) [])
  ∧ ((NoDup (key parameters <$> recipients parameters)
      ∨ (preferSharedInbox parameters = false
         ∧ NoDup ((λ r, Web.href (inbox r)) <$> recipients parameters))) →
     size inboxes = length rs
     ∧ ∀ r, r ∈ rs → inboxes !! key parameters r = Some {[Web.href (id r)]})
  ∧ (∀ r, r ∈ recipients parameters → ¬ kept parameters r →
     (∀ r', r' ∈ rs → Web.href (id r') ≠ Web.href (id r)) →
     ∀ k s, inboxes !! k = Some s → Web.href (id r) ∉ s).
Proof.
  intros inboxes rs.
  assert (Hentry : ∀ k s x, inboxes !! k = Some s →
            x ∈ s ↔ ∃ r, r ∈ rs ∧ key parameters r = k ∧ Web.href (id r) = x).
  { intros k s x Hs. rewrite (extractInboxes_entry _ _ _ Hs). subst rs.
    split.
    - intros (r & ? & ? & ? & ?). exists r.
      by rewrite list_elem_of_filter.
    - intros (r & [? ?]%list_elem_of_filter & ? & ?). by exists r. }
  assert (Hdom : dom inboxes = list_to_set (key parameters <$> rs)).
  { apply set_eq; intros k. subst inboxes rs.
    rewrite elem_of_dom, extractInboxes_is_Some, elem_of_list_to_set,
      list_elem_of_fmap. split.
    - intros (r & ? & ? & ?). exists r. by rewrite list_elem_of_filter.
    - intros (r & -> & [? ?]%list_elem_of_filter). by exists r. }
  split_and!; [done| |done| | |].
  - apply set_eq; intros x.
    rewrite elem_of_union_list, elem_of_list_to_set, list_elem_of_fmap. split.
    + intros (s & Hs & Hx). apply list_elem_of_fmap in Hs as ([k s'] & -> & Hks).
      apply elem_of_map_to_list in Hks.
      apply (Hentry _ _ x Hks) in Hx as (r & ? & ? & ?). by exists r.
    + intros (r & -> & Hr).
      assert (is_Some (inboxes !! key parameters r)) as [s Hs].
      { apply elem_of_dom. rewrite Hdom, elem_of_list_to_set.
        by apply list_elem_of_fmap_2. }
      exists s. split.
      * apply list_elem_of_fmap. exists (key parameters r, s).
        split; [done|]. by apply elem_of_map_to_list.
      * apply (Hentry _ _ _ Hs). by exists r.
  - apply map_eq; intros k. subst inboxes rs.
    rewrite !extractInboxes_lookup. simpl. by rewrite members_kept.
  - intros Hdistinct.
    assert (Hnd : NoDup (key parameters <$> recipients parameters)).
    { destruct Hdistinct as [?|[Hpref Hnd]]; [done|].
      unfold key, target. by rewrite Hpref. }
    split.
    + rewrite <- (size_dom (D:=gset string)), Hdom, size_list_to_set.
      * by rewrite length_fmap.
      * eapply sublist_NoDup; [exact Hnd|].
        apply fmap_sublist, sublist_filter.
    + intros r [Hkept Hin]%list_elem_of_filter. subst inboxes.
      rewrite extractInboxes_lookup, members_NoDup by done.
      f_equal. set_solver.
  - intros r _ _ Hfresh k s Hs Hin.
    apply (Hentry _ _ _ Hs) in Hin as (r' & Hr' & _ & Hid).
    by apply (Hfresh r').
Qed.

Lemma extractInboxes_member parameters r :
  r ∈ recipients parameters → kept parameters r →
  ∃ s, extractInboxes parameters !! key parameters r = Some s
       ∧ Web.href (id r) ∈ s.
Proof.
  intros Hin Hkept.
  assert (is_Some (extractInboxes parameters !! key parameters r)) as [s Hs].
  { apply extractInboxes_is_Some. by exists r. }
  exists s. split; [done|].
  apply (extractInboxes_entry _ _ _ Hs). by exists r.
Qed.

(** C2.  With [preferSharedInbox] set, a recipient that declares a shared
    inbox (not excluded) is found in the entry of that shared inbox,
    together with every other recipient declaring the same shared inbox,
    whatever their personal inboxes; a recipient that declares none is
    found in the entry of its personal inbox; and an identifier is in an
    entry only for a recipient keyed this way, so a recipient with a
    shared inbox is not entered under its personal inbox. *)
Theorem extractInboxes_prefers_shared (rs : list Actor)
    (exclude : list Web.URL) :
  let inboxes := extractInboxes (mkExtractInboxesParameters rs true exclude) in
  (∀ r u, r ∈ rs → sharedInbox r = Some u → excluded exclude u = false →
     ∃ s, inboxes !! Web.href u = Some s
          ∧ Web.href (id r) ∈ s
          ∧ ∀ r', r' ∈ rs → sharedInbox r' = Some u → Web.href (id r') ∈ s)
  ∧ (∀ r, r ∈ rs → sharedInbox r = None →
     excluded exclude (inbox r) = false →
     ∃ s, inboxes !! Web.href (inbox r) = Some s ∧ Web.href (id r) ∈ s)
  ∧ (∀ k s x, inboxes !! k = Some s → x ∈ s →
     ∃ r, r ∈ rs ∧ Web.href (id r) = x
          ∧ k = Web.href (match sharedInbox r with
                          | Some u => u
                          | None => inbox r
                          end)).
Proof.
  intros inboxes. subst inboxes.
  set (parameters := mkExtractInboxesParameters rs true exclude).
  split_and!.
  - intros r u Hin Hshared Hex.
    assert (Hkey : ∀ r', sharedInbox r' = Some u →
              kept parameters r' ∧ key parameters r' = Web.href u).
    { intros r' Hr'. unfold kept, key, target; simpl. by rewrite Hr'. }
    destruct (Hkey r Hshared) as [Hkept Hk].
    destruct (extractInboxes_member parameters r Hin Hkept) as (s & Hs & Hr).
    rewrite Hk in Hs. exists s. split_and!; [done|done|].
    intros r' Hin' Hshared'. destruct (Hkey r' Hshared') as [Hkept' Hk'].
    apply (extractInboxes_entry _ _ _ Hs). by exists r'.
  - intros r Hin Hshared Hex.
    assert (kept parameters r ∧ key parameters r = Web.href (inbox r))
      as [Hkept Hk].
    { unfold kept, key, target; simpl. by rewrite Hshared. }
    destruct (extractInboxes_member parameters r Hin Hkept) as (s & Hs & Hr).
    rewrite Hk in Hs. by exists s.
  - intros k s x Hs Hx.
    apply (extractInboxes_entry _ _ _ Hs) in Hx as (r & Hin & _ & Hk & Hid).
    exists r. split_and!; [done|done|].
    rewrite <- Hk. unfold key, target; simpl. by destruct (sharedInbox r).
Qed.

(** *** [sendActivity] *)

Section sendActivity.

(** An activity as the pipeline reads it: its identifier, if any, and the
    values of its [actor] property. *)
Record Activity := mkActivity {
  activityId : option Web.URL;
  actorIds : list Web.URL;
}.

(** The collaborators of the pipeline: the private key type, the JSON-LD
    serialisation of an activity, the HTTP Signature signer, which returns
    the request with its digest, date and signature headers, and the
    network, which gives the response of the remote server to a request.
    The text shown for the identifier of an activity that has none is not
    specified and is left open. *)
Context {PrivateKey : Type}.
Variable toJsonLd : Activity → string.
Variable sign : PrivateKey → Web.URL → Web.Request → Web.Request.
Variable fetch : Web.Request → Web.Response.
Variable missing_id : string.

Record SendActivityParameters := mkSendActivityParameters {
  activity : Activity;
  privateKey : PrivateKey;
  keyId : Web.URL;
  toInbox : Web.URL;
  withHeaders : option (gmap string string);
}.

(** A computation that issues network requests and may fail: the requests
    issued, in order, and the outcome. *)
Definition Net (A : Type) : Type := list Web.Request * (error + A).

#[local] Instance Net_ret : MRet Net := λ A a, ([], inr a).
#[local] Instance Net_bind : MBind Net := λ A B f m,
  match m with
  | (issued, inl e) => (issued, inl e)
  | (issued, inr a) => let '(issued', b) := f a in (issued ++ issued', b)
  end.

Definition raise {A} (e : error) : Net A := ([], inl e).
Definition issue (request : Web.Request) : Net Web.Response :=
  ([request], inr (fetch request)).

Definition newline : string := String "010"%char EmptyString.

(** Modelled from the spec: the request the absent [sendActivity] issues,
    a signed POST to the inbox with content type
    [application/activity+json]; the caller's headers are merged in
    without overriding those already set. *)
Definition signedRequest (p : SendActivityParameters) : Web.Request :=
  let unsigned :=
    Web.mkRequest "POST" (toInbox p)
      {["Content-Type" := "application/activity+json"]}
      (toJsonLd (activity p)) in
  let signed := sign (privateKey p) (keyId p) unsigned in
  Web.mkRequest (Web.method signed) (Web.url signed)
    (Web.headers signed ∪ default ∅ (withHeaders p)) (Web.body signed).

(** Modelled from the spec: the message of the error the absent
    [sendActivity] fails with on a response outside the 2xx range, in the
    format asserted by [send.test.ts]. *)
Definition failureMessage (p : SendActivityParameters)
    (response : Web.Response) : string :=
  "Failed to send activity "
  +:+ from_option Web.href missing_id (activityId (activity p))
  +:+ " to " +:+ Web.href (toInbox p)
  +:+ " (" +:+ pretty (Web.status response)
  +:+ " " +:+ Web.statusText response +:+ "):" +:+ newline
  +:+ Web.text response.

(** Modelled from the spec: [federation/send.ts] is not part of the
    sources.  The specification has [sendActivity] fail with a [TypeError]
    before any network call when the activity has no [actor]; otherwise
    serialise the activity, sign a POST request to the inbox with content
    type [application/activity+json] and the caller's headers merged in,
    and issue it; succeed on a 2xx response and otherwise fail with an
    error whose message carries the activity id, the inbox URL, the status
    code, the status text and the text of the response body, in the format
    asserted by [send.test.ts]. *)
Definition sendActivity (p : SendActivityParameters) : Net unit :=
  match actorIds (activity p) with
  | [] =>
      raise (TypeError
               "The activity to send must have at least one actor property.")
  | _ :: _ =>
      response ← issue (signedRequest p);
      if Web.ok response then mret ()
      else raise (Error (failureMessage p response))
  end.

(** C3.  For an activity without an [actor] value [sendActivity] fails
    with the [TypeError] of that exact message, and the list of requests
    it has issued is empty. *)
Theorem sendActivity_requires_actor (p : SendActivityParameters) :
  actorIds (activity p) = [] →
  sendActivity p
  = ([], inl (TypeError
                "The activity to send must have at least one actor property.")).
Proof. intros Hactor. unfold sendActivity. by rewrite Hactor. Qed.

(** C4.  For an activity with an [actor] value, when the response to the
    one request issued is not in the 2xx range, [sendActivity] fails with
    an [Error] whose message is built from the activity id, the inbox URL,
    the status code in decimal, the status text and the body text of the
    response, unchanged; for the response [500 Internal Server Error] with
    body [something went wrong] and an activity with identifier [u] this
    is the message of the test. *)
Theorem sendActivity_reports_failure (p : SendActivityParameters) :
  actorIds (activity p) ≠ [] →
  let response := fetch (signedRequest p) in
  (Web.status response < 200 ∨ 299 < Web.status response) →
  sendActivity p
  = ([signedRequest p],
     inl (Error ("Failed to send activity "
                 +:+ from_option Web.href missing_id (activityId (activity p))
                 +:+ " to " +:+ Web.href (toInbox p)
                 +:+ " (" +:+ pretty (Web.status response)
                 +:+ " " +:+ Web.statusText response +:+ "):" +:+ newline
                 +:+ Web.text response)))
  ∧ (∀ u, activityId (activity p) = Some u →
       response
       = Web.mkResponse 500 "Internal Server Error" "something went wrong" →
       sendActivity p
       = ([signedRequest p],
          inl (Error ("Failed to send activity " +:+ Web.href u
                      +:+ " to " +:+ Web.href (toInbox p)
                      +:+ " (500 Internal Server Error):" +:+ newline
                      +:+ "something went wrong")))).
Proof.
  intros Hactor response Hstatus.
  assert (Hsend : sendActivity p
                  = ([signedRequest p],
                     inl (Error (failureMessage p response)))).
  { unfold sendActivity. destruct (actorIds (activity p)); [done|].
    unfold mbind, Net_bind, issue, raise, mret, Net_ret. fold response.
    assert (Web.ok response = false) as ->; [|done].
    unfold Web.ok. apply andb_false_iff.
    destruct Hstatus; [left; apply Nat.leb_gt | right; apply Nat.leb_gt]; lia. }
  split; [done|].
  intros u Hid Hresponse. rewrite Hsend. unfold failureMessage.
  by rewrite Hid, Hresponse.
Qed.


End sendActivity.

(** *** The deliveries of [send.test.ts]

    The mocked server answers 202 on [/inbox] and 500 on [/inbox2]; the
    signer of the test is replaced by one that adds a fixed [Signature]
    header. *)

Definition mockFetch (request : Web.Request) : Web.Response :=
  if decide (Web.pathname (Web.url request) = "/inbox2") then
    Web.mkResponse 500 "Internal Server Error" "something went wrong"
  else Web.mkResponse 202 "Accepted" "".

Definition mockSign (key : string) (keyId : Web.URL) (request : Web.Request)
    : Web.Request :=
  Web.mkRequest (Web.method request) (Web.url request)
    (<["Signature" := "keyId=" +:+ Web.href keyId]> (Web.headers request))
    (Web.body request).

Definition deliver (a : Activity) (inbox : Web.URL)
    (headers : option (gmap string string)) : Net unit :=
  sendActivity (λ _, "{}") mockSign mockFetch "undefined"
    (mkSendActivityParameters a "rsaPrivateKey2"
       (url "https://example.com" "/key2") inbox headers).

Definition person : Web.URL := url "https://example.com" "/person".

Example sendActivity_success :
  let sent :=
    deliver (mkActivity None [person]) (url "https://example.com" "/inbox")
      (Some {["X-Test" := "test"]}) in
  sent.1
  = [Web.mkRequest "POST" (url "https://example.com" "/inbox")
       {[ "Content-Type" := "application/activity+json";
          "Signature" := "keyId=https://example.com/key2";
          "X-Test" := "test" ]}
       "{}"]
  ∧ sent.2 = inr ().
Proof. split; by_compute. Qed.

Example sendActivity_failure :
  (deliver (mkActivity (Some (url "https://example.com" "/activity")) [person])
     (url "https://example.com" "/inbox2") None).2
  = inl (Error ("Failed to send activity https://example.com/activity to "
                +:+ "https://example.com/inbox2 (500 Internal Server Error):"
                +:+ newline +:+ "something went wrong")).
Proof. by vm_compute. Qed.

Example sendActivity_no_actor :
  deliver (mkActivity None []) (url "https://example.com" "/inbox2") None
  = ([], inl (TypeError
                "The activity to send must have at least one actor property.")).
Proof. by vm_compute. Qed.

(** *** The claims on the recipients and deliveries of the test *)

Definition excludingExampleCom : ExtractInboxesParameters :=
  mkExtractInboxesParameters testRecipients false
    [url "https://example.com" "/"].

Lemma extractInboxes_partition_witness :
  NoDup ((λ r, Web.href (inbox r)) <$> recipients excludingExampleCom)
  ∧ size (extractInboxes excludingExampleCom)
    = length (filter (kept excludingExampleCom)
                (recipients excludingExampleCom))
  ∧ ∀ r, r ∈ filter (kept excludingExampleCom)
               (recipients excludingExampleCom) →
      extractInboxes excludingExampleCom !! key excludingExampleCom r
      = Some {[Web.href (id r)]}.
Proof.
  assert (Hnd : NoDup ((λ r, Web.href (inbox r))
                         <$> recipients excludingExampleCom))
    by by_compute.
  split; [exact Hnd|].
  exact (proj1 (proj2 (proj2 (proj2 (proj2
           (extractInboxes_partition excludingExampleCom)))))
           (or_intror (conj eq_refl Hnd))).
Defined.

Lemma extractInboxes_prefers_shared_witness :
  alice ∈ testRecipients
  ∧ sharedInbox alice = Some (url "https://example.com" "/inbox")
  ∧ excluded [] (url "https://example.com" "/inbox") = false
  ∧ ∃ s,
      extractInboxes (mkExtractInboxesParameters testRecipients true [])
      !! "https://example.com/inbox" = Some s
      ∧ "https://example.com/alice" ∈ s
      ∧ "https://example.com/app" ∈ s.
Proof.
  assert (Halice : alice ∈ testRecipients) by by_compute.
  assert (Happ : app ∈ testRecipients) by by_compute.
  assert (Hex : excluded [] (url "https://example.com" "/inbox") = false)
    by (vm_compute; reflexivity).
  split; [exact Halice|]. split; [reflexivity|]. split; [exact Hex|].
  destruct (proj1 (extractInboxes_prefers_shared testRecipients [])
              alice (url "https://example.com" "/inbox") Halice eq_refl Hex)
    as (s & Hs & Hin & Hall).
  exists s. split; [exact Hs|]. split; [exact Hin|].
  exact (Hall app Happ eq_refl).
Defined.

Definition withoutActor : @SendActivityParameters string :=
  mkSendActivityParameters (mkActivity None []) "rsaPrivateKey2"
    (url "https://example.com" "/key2") (url "https://example.com" "/inbox2")
    None.

Definition toFailingInbox : @SendActivityParameters string :=
  mkSendActivityParameters
    (mkActivity (Some (url "https://example.com" "/activity")) [person])
    "rsaPrivateKey2" (url "https://example.com" "/key2")
    (url "https://example.com" "/inbox2") None.

Lemma sendActivity_requires_actor_witness :
  actorIds (activity withoutActor) = []
  ∧ sendActivity (λ _, "{}") mockSign mockFetch "undefined" withoutActor
    = ([], inl (TypeError
                  "The activity to send must have at least one actor property.")).
Proof.
  split; [reflexivity|].
  exact (sendActivity_requires_actor (λ _, "{}") mockSign mockFetch
           "undefined" withoutActor eq_refl).
Defined.

Lemma sendActivity_reports_failure_witness :
  actorIds (activity toFailingInbox) ≠ []
  ∧ 299 < Web.status
            (mockFetch (signedRequest (λ _, "{}") mockSign toFailingInbox))
  ∧ sendActivity (λ _, "{}") mockSign mockFetch "undefined" toFailingInbox
    = ([signedRequest (λ _, "{}") mockSign toFailingInbox],
       inl (Error ("Failed to send activity https://example.com/activity"
                   +:+ " to https://example.com/inbox2"
                   +:+ " (500 Internal Server Error):" +:+ newline
                   +:+ "something went wrong"))).
Proof.
  assert (Hactor : actorIds (activity toFailingInbox) ≠ []) by discriminate.
  assert (Hstatus : 299 < Web.status
            (mockFetch (signedRequest (λ _, "{}") mockSign toFailingInbox))).
  { vm_compute. lia. }
  split; [exact Hactor|]. split; [exact Hstatus|].
  exact (proj2 (sendActivity_reports_failure (λ _, "{}") mockSign mockFetch
                  "undefined" toFailingInbox Hactor (or_intror Hstatus))
           (url "https://example.com" "/activity") eq_refl eq_refl).
Defined.



End Send.

(** ** The callbacks of the blog: [examples/blog/federation/mod.ts]

    The callbacks the example registers are closures over the storage of
    the blog ([models/*.ts]) and over the request context.  What they read
    from storage is given as a snapshot of it, what they read from the
    context as the record of its URI builders, and what they write (a
    follower added or removed, a comment added, an activity sent, a debug
    line) is returned as the list of these effects, in order. *)

Module BlogCallbacks.

(** [link: Link | URL | string | null], a [Link] carrying its optional
    [href]. *)
Inductive LinkValue :=
  | LinkObject (href : option Web.URL)
  | UrlValue (u : Web.URL)
  | StringValue (s : string)
  | NullValue.

Definition getHref (link : LinkValue) : option string :=
  match link with
  | NullValue => None
  | LinkObject href => Web.href <$> href
  | UrlValue u => Some (Web.href u)
  | StringValue s => Some s
  end.

Section callbacks.

(** Keys, posts, comments, notes and instants are values of the models
    and of the vocabulary, opaque to the callbacks but for the [uuid] of a
    post; [host] is [URL.host], [parseUrl] is [new URL(text)], [public]
    the ActivityStreams public collection, and [clock] the reading of
    [Temporal.Now.instant()]. *)
Context {CryptoKey CryptographicKey Post StoredComment Note Instant : Type}.
Variable uuid : Post → string.
Variable host : Web.URL → string.
Variable parseUrl : string → Web.URL.
Variable public : Web.URL.
Variable clock : Instant.

Record Blog := mkBlog {
  handle : string;
  title : string;
  description : string;
  publicKey : CryptoKey;
  privateKey : CryptoKey;
}.

Record Follower := mkFollower {
  activityId : string;
  id : string;
  name : string;
  url : string;
  followerHandle : string;
  inbox : string;
  sharedInbox : option string;
  typeName : string;
}.

(** What the callbacks read from [models/*.ts]. *)
Record Storage := mkStorage {
  getBlog : option Blog;
  getPosts : option nat → option string → list Post * option string;
  countPosts : nat;
  getComments : string → list StoredComment;
  getFollowers : option nat → option string → list Follower * option string;
  countFollowers : nat;
}.

(** What the callbacks read from the context: [ctx.getActorUri(handle)]
    and its siblings, [ctx.getInboxUri] with and without a handle,
    [ctx.request.url] and [ctx.url]. *)
Record Context := mkContext {
  getActorUri : string → Web.URL;
  getOutboxUri : string → Web.URL;
  getInboxUri : option string → Web.URL;
  getFollowingUri : string → Web.URL;
  getFollowersUri : string → Web.URL;
  requestUrl : Web.URL;
  contextUrl : Web.URL;
}.

Variable toNote : Context → Blog → Post → list StoredComment → Note.

(** [new URL(path, base)] for an absolute path. *)
Definition resolve (path : string) (base : Web.URL) : Web.URL :=
  Web.mkURL (Web.origin base) path.

(** *** Dispatchers *)

Record Person := mkPerson {
  person_id : Web.URL;
  person_name : string;
  person_summary : string;
  person_preferredUsername : string;
  person_url : Web.URL;
  person_outbox : Web.URL;
  person_inbox : Web.URL;
  person_sharedInbox : Web.URL;
  person_following : Web.URL;
  person_followers : Web.URL;
  person_publicKey : CryptographicKey;
}.

Definition actorDispatcher (storage : Storage) (ctx : Context)
    (h : string) (key : CryptographicKey) : option Person :=
  match getBlog storage with
  | None => None
  | Some blog =>
      if decide (handle blog ≠ h) then None
      else Some (mkPerson (getActorUri ctx h) (title blog) (description blog)
                   h (resolve "/" (requestUrl ctx)) (getOutboxUri ctx h)
                   (getInboxUri ctx (Some h)) (getInboxUri ctx None)
                   (getFollowingUri ctx h) (getFollowersUri ctx h) key)
  end.


Record Create := mkCreate {
  create_id : Web.URL;
  create_actor : Web.URL;
  create_to : Web.URL;
  create_object : Note;
}.

Record Page (A : Type) := mkPage {
  items : list A;
  nextCursor : option string;
}.
Arguments mkPage {A} _ _.
Arguments items {A} _.
Arguments nextCursor {A} _.

(** [cursor === "" ? undefined : cursor] *)
Definition startAt (cursor : string) : option string :=
  if decide (cursor = "") then None else Some cursor.

Definition outboxDispatcher (storage : Storage) (ctx : Context)
    (h : string) (cursor : option string) : option (Page Create) :=
  match cursor with
  | None => None
  | Some cursor =>
      match getBlog storage with
      | None => None
      | Some blog =>
          if decide (handle blog ≠ h) then None
          else
            let '(posts, next) := getPosts storage None (startAt cursor) in
            Some (mkPage
                    ((λ post,
                        mkCreate
                          (resolve ("/posts/" +:+ uuid post +:+ "#activity")
                             (requestUrl ctx))
                          (getActorUri ctx h) public
                          (toNote ctx blog post
                             (getComments storage (uuid post))))
                       <$> posts)
                    next)
      end
  end.

Definition outboxCounter (storage : Storage) (h : string) : option nat :=
  match getBlog storage with
  | None => None
  | Some blog =>
      if decide (handle blog ≠ h) then None else Some (countPosts storage)
  end.

Definition outboxFirstCursor (storage : Storage) (h : string)
    : option string :=
  match getBlog storage with
  | None => None
  | Some blog => if decide (handle blog ≠ h) then None else Some ""
  end.





(** *** Inbox listeners *)

(** A remote actor as the listeners read it, after [isActor] has
    accepted it. *)
Record RemoteActor := mkRemoteActor {
  actor_id : option Web.URL;
  actor_preferredUsername : option string;
  actor_name : option string;
  actor_url : LinkValue;
  actor_inboxId : option Web.URL;
  actor_sharedInbox : option Web.URL;
  actor_typeName : string;
}.

(** A [Follow] activity: its [id], its [objectId], and what [getActor]
    resolves to, [None] standing for a value [isActor] rejects. *)
Record Follow := mkFollow {
  follow_id : option Web.URL;
  follow_objectId : option Web.URL;
  follow_getActor : option RemoteActor;
}.

Record Accept := mkAccept {
  accept_actor : Web.URL;
  accept_object : Follow;
}.

Record Author := mkAuthor {
  author_id : string;
  author_name : string;
  author_handle : string;
  author_url : string;
}.

Record Comment := mkComment {
  comment_id : string;
  comment_content : string;
  comment_url : string;
  comment_author : Author;
  comment_published : Instant;
  comment_postUuid : string;
}.

(** A [Note] received: [id], [content], [url], what [getAttributedTo]
    resolves to, and [replyTargetIds]. *)
Record ReceivedNote := mkReceivedNote {
  note_id : option Web.URL;
  note_content : option string;
  note_url : LinkValue;
  note_getAttributedTo : option RemoteActor;
  note_replyTargetIds : list Web.URL;
}.

(** What [getObject] of a [Create] or of an [Undo] resolves to. *)
Inductive Received :=
  | ANote (note : ReceivedNote)
  | AFollow (follow : Follow)
  | Other.

Inductive effect :=
  | AddFollower (follower : Follower)
  | RemoveFollower (followActivityId : string)
  | AddComment (comment : Comment)
  | SendActivity (sender : string) (recipient : RemoteActor) (activity : Accept)
  | ConsoleDebug.

(** [new URLPattern("/posts/:uuid", ctx.url.href).exec(target)] followed
    by [match.pathname.groups.uuid]: no match, a match without the group,
    or the group. *)
Variable execPostPattern : Web.URL → Web.URL → option (option string).

Definition onFollow (storage : Storage) (ctx : Context) (follow : Follow)
    : list effect :=
  match getBlog storage with
  | None => []
  | Some blog =>
      match follow_id follow with
      | None => []
      | Some followId =>
          let actorUri := getActorUri ctx (handle blog) in
          if decide (Web.href <$> follow_objectId follow
                     ≠ Some (Web.href actorUri)) then []
          else
            match follow_getActor follow with
            | None => []
            | Some recipient =>
                match actor_id recipient, actor_preferredUsername recipient,
                      actor_inboxId recipient with
                | Some rid, Some username, Some inboxId =>
                    [ AddFollower
                        (mkFollower (Web.href followId) (Web.href rid)
                           (default "" (actor_name recipient))
                           (default (Web.href rid)
                              (getHref (actor_url recipient)))
                           ("@" +:+ username +:+ "@" +:+ host rid)
                           (Web.href inboxId)
                           (Web.href <$> actor_sharedInbox recipient)
                           (actor_typeName recipient));
                      SendActivity (handle blog) recipient
                        (mkAccept actorUri follow) ]
                | _, _, _ => []
                end
            end
      end
  end.

Definition onCreate (ctx : Context) (published : option Instant)
    (object : Received) : list effect :=
  match object with
  | ANote note =>
      match note_id note, note_content note with
      | Some noteId, Some content =>
          match note_getAttributedTo note with
          | None => []
          | Some author =>
              match actor_id author, actor_preferredUsername author with
              | Some aid, Some username =>
                  omap
                    (λ target,
                       match execPostPattern (contextUrl ctx) target with
                       | Some (Some postUuid) =>
                           Some (AddComment
                                   (mkComment (Web.href noteId) content
                                      (default (Web.href noteId)
                                         (getHref (note_url note)))
                                      (mkAuthor (Web.href aid)
                                         (default username (actor_name author))
                                         ("@" +:+ username +:+ "@"
                                          +:+ host aid)
                                         (default (Web.href aid)
                                            (getHref (actor_url author))))
                                      (default clock published)
                                      postUuid))
                       | _ => None
                       end)
                    (note_replyTargetIds note)
              | _, _ => []
              end
          end
      | _, _ => []
      end
  | _ => [ConsoleDebug]
  end.

Definition onUndo (object : Received) : list effect :=
  match object with
  | AFollow follow =>
      match follow_id follow with
      | None => []
      | Some followId => [RemoveFollower (Web.href followId)]
      end
  | _ => [ConsoleDebug]
  end.

(** *** Properties of the dispatchers *)



(** X15.  The first cursor of the outbox opens its first page: what
    [setFirstCursor]'s callback returns, given to the dispatcher, makes
    it read the posts without cursor, and any other (non-empty) cursor is
    passed on as it is.  The page lists one [Create] per post read, in
    order, with the activity id of the post, the actor URI of the handle,
    the public audience and the note of the post, and carries the next
    cursor of the storage. *)
Theorem outbox_pages (storage : Storage) (ctx : Context) (blog : Blog)
    (cursor : string) :
  getBlog storage = Some blog →
  let h := handle blog in
  let page from :=
    mkPage
      ((λ post,
          mkCreate
            (resolve ("/posts/" +:+ uuid post +:+ "#activity") (requestUrl ctx))
            (getActorUri ctx h) public
            (toNote ctx blog post (getComments storage (uuid post))))
         <$> (getPosts storage None from).1)
      (getPosts storage None from).2 in
  outboxDispatcher storage ctx h (outboxFirstCursor storage h)
  = Some (page None)
  ∧ (cursor ≠ "" →
     outboxDispatcher storage ctx h (Some cursor) = Some (page (Some cursor)))
  ∧ outboxCounter storage h = Some (countPosts storage).
Proof.
  intros Hblog h page. subst h page.
  unfold outboxDispatcher, outboxFirstCursor, outboxCounter, startAt.
  rewrite Hblog.
  destruct (decide (handle blog ≠ handle blog)) as [?|_]; [done|].
  rewrite decide_True by done.
  split_and!; [by destruct (getPosts _ _ _)| |done].
  intros Hne. rewrite decide_False by done. by destruct (getPosts _ _ _).
Qed.


(** *** Properties of the listeners *)

(** The follower record and the reply the [Follow] listener produces for
    a complete follow request. *)
Definition followerOf (followId rid inboxId : Web.URL) (username : string)
    (recipient : RemoteActor) : Follower :=
  mkFollower (Web.href followId) (Web.href rid)
    (default "" (actor_name recipient))
    (default (Web.href rid) (getHref (actor_url recipient)))
    ("@" +:+ username +:+ "@" +:+ host rid)
    (Web.href inboxId) (Web.href <$> actor_sharedInbox recipient)
    (actor_typeName recipient).


(** X18.  A complete follow request addressed to the blog is accepted:
    under the conditions above the listener does add the follower and
    send the [Accept]. *)
Theorem onFollow_accepts (storage : Storage) (ctx : Context) (follow : Follow)
    (blog : Blog) (followId rid inboxId : Web.URL) (username : string)
    (recipient : RemoteActor) :
  getBlog storage = Some blog →
  follow_id follow = Some followId →
  follow_objectId follow = Some (getActorUri ctx (handle blog)) →
  follow_getActor follow = Some recipient →
  actor_id recipient = Some rid →
  actor_preferredUsername recipient = Some username →
  actor_inboxId recipient = Some inboxId →
  onFollow storage ctx follow
  = [ AddFollower (followerOf followId rid inboxId username recipient);
      SendActivity (handle blog) recipient
        (mkAccept (getActorUri ctx (handle blog)) follow) ].
Proof.
  intros Hblog Hid Hobject Hactor Hrid Huser Hinbox. unfold onFollow.
  rewrite Hblog, Hid, Hobject, Hactor, Hrid, Huser, Hinbox. simpl.
  by rewrite decide_False by (by intros ?).
Qed.

(** X19.  Unfollowing undoes following: the key under which the [Follow]
    listener adds a follower is the key the [Undo] listener removes when
    the same [Follow] is undone, and it removes nothing else. *)
Theorem onUndo_removes_what_onFollow_added (storage : Storage) (ctx : Context)
    (follow : Follow) (follower : Follower) (rest : list effect) :
  onFollow storage ctx follow = AddFollower follower :: rest →
  onUndo (AFollow follow) = [RemoveFollower (activityId follower)].
Proof.
  unfold onFollow, onUndo.
  destruct (getBlog storage) as [blog|]; [|done].
  destruct (follow_id follow) as [followId|]; [|done].
  case_decide; [done|].
  destruct (follow_getActor follow) as [recipient|]; [|done].
  destruct (actor_id recipient), (actor_preferredUsername recipient),
    (actor_inboxId recipient); try done.
  by intros [= <- _].
Qed.

(** The post a reply target points at, if it is a post of this blog. *)
Definition repliedPost (ctx : Context) (target : Web.URL) : option string :=
  mjoin (execPostPattern (contextUrl ctx) target).

(** X20.  The [Create] listener records a reply once for every reply
    target that is a post of this blog, in order, and for nothing else:
    for a note with an id, a content and an author that has an id and a
    preferred username, the posts of the comments added are exactly the
    posts the reply targets match, every comment carrying the id and the
    content of the note and the publication time of the activity, or the
    clock time if it has none; for a note lacking one of these nothing is
    added; and anything that is not a note is only logged. *)
Theorem onCreate_records_replies (ctx : Context) (published : option Instant)
    (object : Received) :
  match object with
  | ANote note =>
      match note_id note, note_content note, note_getAttributedTo note with
      | Some noteId, Some content, Some author =>
          match actor_id author, actor_preferredUsername author with
          | Some _, Some _ =>
              ∃ comments,
                onCreate ctx published object = AddComment <$> comments
                ∧ comment_postUuid <$> comments
                  = omap (repliedPost ctx) (note_replyTargetIds note)
                ∧ Forall (λ c, comment_id c = Web.href noteId
                               ∧ comment_content c = content
                               ∧ comment_published c = default clock published)
                    comments
          | _, _ => onCreate ctx published object = []
          end
      | _, _, _ => onCreate ctx published object = []
      end
  | _ => onCreate ctx published object = [ConsoleDebug]
  end.
Proof.
  destruct object as [note| |]; [|done|done]. unfold onCreate.
  destruct (note_id note) as [noteId|]; [|done].
  destruct (note_content note) as [content|]; [|done].
  destruct (note_getAttributedTo note) as [author|]; [|done].
  destruct (actor_id author) as [aid|]; [|done].
  destruct (actor_preferredUsername author) as [username|]; [|done].
  match goal with |- context [omap ?g _] => set (F := g) end.
  induction (note_replyTargetIds note) as [|target targets IH].
  { by exists []. }
  destruct IH as (comments & Heq & Hposts & Hall).
  change (omap F (target :: targets))
    with (match F target with
          | Some e => e :: omap F targets
          | None => omap F targets
          end).
  change (omap (repliedPost ctx) (target :: targets))
    with (match repliedPost ctx target with
          | Some u => u :: omap (repliedPost ctx) targets
          | None => omap (repliedPost ctx) targets
          end).
  unfold F at 1, repliedPost at 1.
  destruct (execPostPattern (contextUrl ctx) target) as [[postUuid|]|]; simpl.
  - eexists (_ :: comments). rewrite Heq, <- Hposts.
    split_and!; [done|done|]. by constructor.
  - by exists comments.
  - by exists comments.
Qed.

End callbacks.

Arguments mkPage {A} _ _.
Arguments items {A} _.
Arguments nextCursor {A} _.

End BlogCallbacks.

(** *** A blog to run the callbacks on *)

Module BlogData.
Import BlogCallbacks.

Definition at_ (path : string) : Web.URL := Web.mkURL "https://blog.example" path.

Definition blog : @Blog string :=
  mkBlog "alice" "Alice's blog" "Notes" "publicKey" "privateKey".

Definition storage : @Storage string string string :=
  mkStorage (Some blog)
    (λ _ cursor,
       match cursor with
       | None => (["post-1"; "post-2"], Some "post-2")
       | Some _ => (["post-3"], None)
       end)
    3
    (λ _, [])
    (λ _ cursor,
       match cursor with
       | None => ([mkFollower "https://remote.example/follows/1"
                     "https://remote.example/users/bob" "Bob"
                     "https://remote.example/@bob" "@bob@remote.example"
                     "https://remote.example/users/bob/inbox" None "Person"],
                  None)
       | Some _ => ([], None)
       end)
    1.

Definition ctx : Context :=
  mkContext (λ h, at_ ("/users/" +:+ h))
    (λ h, at_ ("/users/" +:+ h +:+ "/outbox"))
    (λ h, match h with
          | Some h => at_ ("/users/" +:+ h +:+ "/inbox")
          | None => at_ "/inbox"
          end)
    (λ h, at_ ("/users/" +:+ h +:+ "/following"))
    (λ h, at_ ("/users/" +:+ h +:+ "/followers"))
    (at_ "/users/alice/outbox") (at_ "/users/alice/inbox").

Definition toNote (_ : Context) (_ : @Blog string) (post : string)
    (_ : list string) : string := "note of " +:+ post.

Definition public : Web.URL :=
  Web.mkURL "https://www.w3.org" "/ns/activitystreams#Public".


Definition host (u : Web.URL) : string := "remote.example".

Definition bob : RemoteActor :=
  mkRemoteActor (Some (Web.mkURL "https://remote.example" "/users/bob"))
    (Some "bob") (Some "Bob") NullValue
    (Some (Web.mkURL "https://remote.example" "/users/bob/inbox")) None
    "Person".

Definition followBlog : Follow :=
  mkFollow (Some (Web.mkURL "https://remote.example" "/follows/1"))
    (Some (at_ "/users/alice")) (Some bob).

Lemma outbox_pages_witness :
  getBlog storage = Some blog
  ∧ "post-2" ≠ ""
  ∧ outboxDispatcher (λ post, post) public toNote storage ctx "alice"
      (outboxFirstCursor storage "alice")
    = Some (mkPage
              [ mkCreate (at_ "/posts/post-1#activity") (at_ "/users/alice")
                  public "note of post-1";
                mkCreate (at_ "/posts/post-2#activity") (at_ "/users/alice")
                  public "note of post-2" ]
              (Some "post-2"))
  ∧ outboxDispatcher (λ post, post) public toNote storage ctx "alice"
      (Some "post-2")
    = Some (mkPage
              [ mkCreate (at_ "/posts/post-3#activity") (at_ "/users/alice")
                  public "note of post-3" ]
              None).
Proof.
  assert (Hne : "post-2" ≠ "") by discriminate.
  split; [reflexivity|]. split; [exact Hne|].
  destruct (outbox_pages (λ post, post) public toNote storage ctx blog "post-2"
              eq_refl) as (Hfirst & Hnext & _).
  split; [exact Hfirst | exact (Hnext Hne)].
Defined.


Lemma onFollow_accepts_witness :
  getBlog storage = Some blog
  ∧ follow_objectId followBlog = Some (getActorUri ctx (handle blog))
  ∧ onFollow (Instant:=nat) host storage ctx followBlog
    = [ AddFollower
          (mkFollower "https://remote.example/follows/1"
             "https://remote.example/users/bob" "Bob"
             "https://remote.example/users/bob" "@bob@remote.example"
             "https://remote.example/users/bob/inbox" None "Person");
        SendActivity "alice" bob (mkAccept (at_ "/users/alice") followBlog) ].
Proof.
  split; [reflexivity|]. split; [reflexivity|].
  exact (onFollow_accepts (Instant:=nat) host storage ctx followBlog blog
           _ _ _ "bob" bob eq_refl eq_refl eq_refl eq_refl eq_refl eq_refl
           eq_refl).
Defined.

Lemma onUndo_removes_what_onFollow_added_witness :
  onFollow (Instant:=nat) host storage ctx followBlog
  = [ AddFollower
        (mkFollower "https://remote.example/follows/1"
           "https://remote.example/users/bob" "Bob"
           "https://remote.example/users/bob" "@bob@remote.example"
           "https://remote.example/users/bob/inbox" None "Person");
      SendActivity "alice" bob (mkAccept (at_ "/users/alice") followBlog) ]
  ∧ onUndo (Instant:=nat) (AFollow followBlog)
    = [RemoveFollower "https://remote.example/follows/1"].
Proof.
  assert (Hadded : onFollow (Instant:=nat) host storage ctx followBlog
                   = [ AddFollower
                         (mkFollower "https://remote.example/follows/1"
                            "https://remote.example/users/bob" "Bob"
                            "https://remote.example/users/bob"
                            "@bob@remote.example"
                            "https://remote.example/users/bob/inbox" None
                            "Person");
                       SendActivity "alice" bob
                         (mkAccept (at_ "/users/alice") followBlog) ])
    by reflexivity.
  split; [exact Hadded|].
  exact (onUndo_removes_what_onFollow_added (Instant:=nat) host storage ctx
           followBlog _ _ Hadded).
Defined.

End BlogData.
